(** * CPF / CNPJ generator: the verifier-digit algorithms of [src/App.tsx]

    The development embeds the helper functions and the two generation
    handlers of [App.tsx] and proves the properties the specification
    states about them.

    JavaScript numbers are modelled by [number]: an integer value or [NaN].
    Every value the handlers compute from decimal digits is an integer far
    inside the range where doubles are exact, so [Z] arithmetic is the
    arithmetic of the code there. *)

From Stdlib Require Import ZArith Ascii String DecimalString.
From stdpp Require Import base tactics option list gmap.

Open Scope Z_scope.

(** ** JavaScript numbers *)

Module JS.

Inductive number : Type :=
| Num (z : Z)
| NaN.

Definition add (a b : number) : number :=
  match a, b with
  | Num x, Num y => Num (x + y)
  | _, _ => NaN
  end.

Definition sub (a b : number) : number :=
  match a, b with
  | Num x, Num y => Num (x - y)
  | _, _ => NaN
  end.

Definition mul (a b : number) : number :=
  match a, b with
  | Num x, Num y => Num (x * y)
  | _, _ => NaN
  end.

(** [a % b]: the remainder takes the sign of the dividend ([Z.rem]); a zero
    divisor gives [NaN]. *)
Definition rem (a b : number) : number :=
  match a, b with
  | Num x, Num y => if y =? 0 then NaN else Num (Z.rem x y)
  | _, _ => NaN
  end.

(** [a === b] on numbers: [NaN] is equal to nothing. *)
Definition strictEq (a b : number) : bool :=
  match a, b with
  | Num x, Num y => x =? y
  | _, _ => false
  end.

(** [a < b]: any comparison with [NaN] is false. *)
Definition lt (a b : number) : bool :=
  match a, b with
  | Num x, Num y => x <? y
  | _, _ => false
  end.

(** An array element used as an operand: reading past the end of an array
    gives [undefined], which arithmetic converts to [NaN]. *)
Definition toNumber (v : option number) : number :=
  match v with
  | Some n => n
  | None => NaN
  end.

(** [Array.from({ length: n }, (_, i) => f i)]. *)
Definition arrayFrom {A} (n : nat) (f : nat → A) : list A :=
  map f (seq 0 n).

(** [arr.reduce((acc, x, i) => f acc x i, init)]: a left fold that also
    passes the index. *)
Fixpoint reduceFrom {A B} (f : B → A → nat → B) (i : nat) (arr : list A) (acc : B) : B :=
  match arr with
  | [] => acc
  | x :: rest => reduceFrom f (S i) rest (f acc x i)
  end.

Definition reduce {A B} (f : B → A → nat → B) (arr : list A) (init : B) : B :=
  reduceFrom f 0 arr init.

(** [arr.unshift(x)] *)
Definition unshift {A} (x : A) (arr : list A) : list A := x :: arr.

(** [String(n)] for the values of the model. *)
Definition toString (n : number) : string :=
  match n with
  | Num z => NilZero.string_of_int (Z.to_int z)
  | NaN => "NaN"
  end.

(** [arr.join("")] *)
Definition join (arr : list number) : string :=
  foldr (fun n acc => String.append (toString n) acc) EmptyString arr.

End JS.

Import JS.

(** ** The verifier digits *)

(** The weight array built at lines 12-15. *)
Definition cpfWeights (digits : list number) : list number :=
  arrayFrom (length digits)
    (fun i => sub (add (Num (Z.of_nat (length digits))) (Num 1)) (Num (Z.of_nat i))).

Definition calculateCpfVerifier (digits : list number) : number :=
  let weights := cpfWeights digits in
  let sum :=
    reduce (fun acc digit i => add acc (mul digit (toNumber (weights !! i))))
           digits (Num 0) in
  let remainder := rem (mul sum (Num 10)) (Num 11) in
  if strictEq remainder (Num 10) then Num 0 else remainder.

(** The weight array after lines 23-26. *)
Definition cnpjWeights (digits : list number) : list number :=
  let weights := Num <$> [5; 4; 3; 2; 9; 8; 7; 6; 5; 4; 3; 2] in
  if Nat.eqb (length digits) 13 then unshift (Num 6) weights else weights.

Definition calculateCnpjVerifier (digits : list number) : number :=
  let weights := cnpjWeights digits in
  let sum :=
    reduce (fun acc digit i => add acc (mul digit (toNumber (weights !! i))))
           digits (Num 0) in
  let remainder := rem sum (Num 11) in
  if lt remainder (Num 2) then Num 0 else sub (Num 11) remainder.

(** ** Formatting: [String.prototype.replace] with a pattern of digit groups *)

Module Regex.

(** [\d] *)
Definition isDigitChar (c : ascii) : bool :=
  ((48 <=? N_of_ascii c) && (N_of_ascii c <=? 57))%N.

(** [\d{k}] at the start of [s]: the [k] characters matched and the rest. *)
Fixpoint takeDigits (k : nat) (s : string) : option (string * string) :=
  match k with
  | O => Some (EmptyString, s)
  | S k' =>
      match s with
      | EmptyString => None
      | String c s' =>
          if isDigitChar c then
            match takeDigits k' s' with
            | Some (g, r) => Some (String c g, r)
            | None => None
            end
          else None
      end
  end.

(** A pattern [(\d{k1})(\d{k2})...] is the list of its group lengths; a
    match at the start of [s] gives the captured groups and the rest. *)
Fixpoint matchGroups (groups : list nat) (s : string) : option (list string * string) :=
  match groups with
  | [] => Some ([], s)
  | k :: groups' =>
      match takeDigits k s with
      | Some (g, r) =>
          match matchGroups groups' r with
          | Some (caps, rest) => Some (g :: caps, rest)
          | None => None
          end
      | None => None
      end
  end.

(** The replacement text: literal characters and group references [$n]. *)
Inductive item : Type :=
| Lit (c : ascii)
| Group (n : nat).

Fixpoint expand (template : list item) (caps : list string) : string :=
  match template with
  | [] => EmptyString
  | Lit c :: template' => String c (expand template' caps)
  | Group n :: template' =>
      String.append (default EmptyString (caps !! Nat.pred n)) (expand template' caps)
  end.

(** [s.replace(/pattern/, template)] without the [g] flag: the leftmost
    match is replaced, the text around it is kept, and a string without a
    match is returned as it is. *)
Fixpoint replace (groups : list nat) (template : list item) (s : string) : string :=
  match matchGroups groups s with
  | Some (caps, rest) => String.append (expand template caps) rest
  | None =>
      match s with
      | EmptyString => EmptyString
      | String c s' => String c (replace groups template s')
      end
  end.

End Regex.

Import Regex.

(** ** The generation handlers *)

(** [/(\d{3})(\d{3})(\d{3})(\d{2})/] and ["$1.$2.$3-$4"] *)
Definition cpfPattern : list nat := [3; 3; 3; 2]%nat.
Definition cpfTemplate : list item :=
  [Group 1; Lit "."; Group 2; Lit "."; Group 3; Lit "-"; Group 4].

(** [/(\d{2})(\d{3})(\d{3})(\d{4})(\d{2})/] and ["$1.$2.$3/$4-$5"] *)
Definition cnpjPattern : list nat := [2; 3; 3; 4; 2]%nat.
Definition cnpjTemplate : list item :=
  [Group 1; Lit "."; Group 2; Lit "."; Group 3; Lit "/"; Group 4; Lit "-"; Group 5].

(** [randomDigits(n)]. [draw i] is the value of the [i]-th evaluation of
    [Math.floor(Math.random() * 10)] during the call; the floating-point
    source itself stays outside the model. *)
Definition randomDigits (draw : nat → Z) (n : nat) : list number :=
  arrayFrom n (fun i => Num (draw i)).

(** Lines 48-56: the formatted CPF computed from the base digits. *)
Definition generateCpf (baseDigits : list number) : string :=
  let firstVerifier := calculateCpfVerifier baseDigits in
  let secondVerifier := calculateCpfVerifier (baseDigits ++ [firstVerifier]) in
  let fullCpf := join (baseDigits ++ [firstVerifier; secondVerifier]) in
  replace cpfPattern cpfTemplate fullCpf.

(** Lines 67-78: the formatted CNPJ computed from the base digits. *)
Definition generateCnpj (baseDigits : list number) : string :=
  let firstVerifier := calculateCnpjVerifier baseDigits in
  let secondVerifier := calculateCnpjVerifier (baseDigits ++ [firstVerifier]) in
  let fullCnpj := join (baseDigits ++ [firstVerifier; secondVerifier]) in
  replace cnpjPattern cnpjTemplate fullCnpj.

(** The component state held by the four [useState] hooks. *)
Record AppState : Type := mkAppState {
  cpf : string;
  cnpj : string;
  copiedCpf : bool;
  copiedCnpj : bool
}.

Definition initialState : AppState :=
  {| cpf := ""; cnpj := ""; copiedCpf := false; copiedCnpj := false |}.

Definition handleGenerateCpf (draw : nat → Z) (st : AppState) : AppState :=
  let baseDigits := randomDigits draw 9 in
  {| cpf := generateCpf baseDigits;
     cnpj := cnpj st;
     copiedCpf := false;
     copiedCnpj := copiedCnpj st |}.

Definition handleGenerateCnpj (draw : nat → Z) (st : AppState) : AppState :=
  let baseDigits := randomDigits draw 12 in
  {| cpf := cpf st;
     cnpj := generateCnpj baseDigits;
     copiedCpf := copiedCpf st;
     copiedCnpj := false |}.

(** The contract name of the specification: one entry point, selected by
    the document kind. *)
Inductive DocumentKind : Type := CPF | CNPJ.

Definition computeVerifier (kind : DocumentKind) (digits : list number) : number :=
  match kind with
  | CPF => calculateCpfVerifier digits
  | CNPJ => calculateCnpjVerifier digits
  end.

(** ** The verifiers over a store of arrays

    Arrays are mutable objects: [weights.unshift(6)] updates the array that
    [weights] refers to. The functions are written again over an explicit
    store, where a call allocates its weight table, to state what a call can
    and cannot do to the arrays of other calls. *)

Module Store.

Definition loc := nat.
Abbreviation heap := (gmap loc (list number)).

(** Computations over the store; [None] is a read through a dangling
    reference, which no JavaScript program can hold. *)
Definition M (A : Type) : Type := heap → option (A * heap).

Definition ret {A} (a : A) : M A := fun h => Some (a, h).

Definition bind {A B} (m : M A) (k : A → M B) : M B :=
  fun h => match m h with
           | Some (a, h') => k a h'
           | None => None
           end.

Module Notations.
Notation "'let*' x ':=' m 'in' k" := (bind m (fun x => k))
  (at level 10, x name, m at level 100, k at level 200).
End Notations.
Import Notations.

(** An array literal, or [Array.from]: a new object. *)
Definition newArray (v : list number) : M loc :=
  fun h => let l := fresh (dom h) in Some (l, <[l := v]> h).

Definition readArray (l : loc) : M (list number) :=
  fun h => match h !! l with
           | Some v => Some (v, h)
           | None => None
           end.

(** [arr.length] *)
Definition arrayLength (l : loc) : M nat :=
  let* v := readArray l in ret (length v).

(** [arr[i]] *)
Definition getIndex (l : loc) (i : nat) : M (option number) :=
  let* v := readArray l in ret (v !! i).

(** [arr.unshift(x)], in place. *)
Definition unshiftAt (l : loc) (x : number) : M unit :=
  fun h => match h !! l with
           | Some v => Some (tt, <[l := unshift x v]> h)
           | None => None
           end.

Fixpoint reduceFromM {A B} (f : B → A → nat → M B) (i : nat) (arr : list A) (acc : B) : M B :=
  match arr with
  | [] => ret acc
  | x :: rest => let* acc' := f acc x i in reduceFromM f (S i) rest acc'
  end.

(** [arr.reduce(f, init)] on the array at [l]; the callbacks of the program
    do not write to the array they traverse. *)
Definition reduceM {B} (f : B → number → nat → M B) (l : loc) (init : B) : M B :=
  let* arr := readArray l in reduceFromM f 0 arr init.

Definition calculateCpfVerifier (digits : loc) : M number :=
  let* len := arrayLength digits in
  let* weights :=
    newArray (arrayFrom len
      (fun i => sub (add (Num (Z.of_nat len)) (Num 1)) (Num (Z.of_nat i)))) in
  let* sum :=
    reduceM (fun acc digit i =>
               let* w := getIndex weights i in
               ret (add acc (mul digit (toNumber w))))
            digits (Num 0) in
  let remainder := rem (mul sum (Num 10)) (Num 11) in
  ret (if strictEq remainder (Num 10) then Num 0 else remainder).

Definition calculateCnpjVerifier (digits : loc) : M number :=
  let* weights := newArray (Num <$> [5; 4; 3; 2; 9; 8; 7; 6; 5; 4; 3; 2]) in
  let* len := arrayLength digits in
  let* _ := (if Nat.eqb len 13 then unshiftAt weights (Num 6) else ret tt) in
  let* sum :=
    reduceM (fun acc digit i =>
               let* w := getIndex weights i in
               ret (add acc (mul digit (toNumber w))))
            digits (Num 0) in
  let remainder := rem sum (Num 11) in
  ret (if lt remainder (Num 2) then Num 0 else sub (Num 11) remainder).

Definition computeVerifier (kind : DocumentKind) (digits : loc) : M number :=
  match kind with
  | CPF => calculateCpfVerifier digits
  | CNPJ => calculateCnpjVerifier digits
  end.

(** Any sequence of calls, each on some array of the store. *)
Fixpoint runCalls (calls : list (DocumentKind * loc)) : M (list number) :=
  match calls with
  | [] => ret []
  | (kind, digits) :: calls' =>
      let* r := computeVerifier kind digits in
      let* rs := runCalls calls' in
      ret (r :: rs)
  end.

End Store.

(** ** The rules as the specification words them *)

Module Rule.

(** [Σ digit[i] * weight[i]], positions counted from [i]. *)
Fixpoint weightedSumFrom (weight : nat → Z) (i : nat) (d : list Z) : Z :=
  match d with
  | [] => 0
  | x :: d' => x * weight i + weightedSumFrom weight (S i) d'
  end.

Definition weightedSum (weight : nat → Z) (d : list Z) : Z :=
  weightedSumFrom weight 0 d.

(** Position [i] of an input of length [L] has weight [L + 1 - i]. *)
Definition cpfWeight (L i : nat) : Z := Z.of_nat L + 1 - Z.of_nat i.

Definition cpfRule (d : list Z) : Z :=
  let sum := weightedSum (cpfWeight (length d)) d in
  let remainder := (sum * 10) mod 11 in
  if remainder =? 10 then 0 else remainder.

Definition cnpjTable : list Z := [5; 4; 3; 2; 9; 8; 7; 6; 5; 4; 3; 2].

(** The table sits on the last 12 positions; a 13-digit input has the extra
    weight 6 in front. *)
Definition cnpjAligned (L : nat) : list Z :=
  (if Nat.eqb L 13 then [6] else []) ++ cnpjTable.

Definition cnpjWeight (L i : nat) : Z := default 0 (cnpjAligned L !! i).

Definition cnpjRule (d : list Z) : Z :=
  let sum := weightedSum (cnpjWeight (length d)) d in
  let remainder := sum mod 11 in
  if remainder <? 2 then 0 else 11 - remainder.

(** The weighting [9 - i] of the scenario of section 8. *)
Definition scenarioRule (d : list Z) : Z :=
  let sum := weightedSum (fun i => 9 - Z.of_nat i) d in
  let remainder := (sum * 10) mod 11 in
  if remainder =? 10 then 0 else remainder.

Definition rule (kind : DocumentKind) (d : list Z) : Z :=
  match kind with
  | CPF => cpfRule d
  | CNPJ => cnpjRule d
  end.

End Rule.

(** ** Reading a formatted document back *)

Module Check.

Definition isDigit (z : Z) : Prop := 0 ≤ z ≤ 9.

Definition isPunctuation (c : ascii) : bool :=
  (Ascii.eqb c "." || Ascii.eqb c "-" || Ascii.eqb c "/")%bool.

Fixpoint stripPunctuation (s : string) : string :=
  match s with
  | EmptyString => EmptyString
  | String c s' =>
      if isPunctuation c then stripPunctuation s' else String c (stripPunctuation s')
  end.

Definition digitValue (c : ascii) : Z := Z.of_N (N_of_ascii c) - 48.

Definition digitsOf (s : string) : list Z :=
  digitValue <$> list_ascii_of_string s.

Definition allDigits (s : string) : bool :=
  forallb isDigitChar (list_ascii_of_string s).

(** A template position: a digit [D] or a fixed character. *)
Inductive slot : Type :=
| D
| Fixed (c : ascii).

Fixpoint matchesTemplate (t : list slot) (s : string) : bool :=
  match t, s with
  | [], EmptyString => true
  | D :: t', String c s' => isDigitChar c && matchesTemplate t' s'
  | Fixed x :: t', String c s' => Ascii.eqb c x && matchesTemplate t' s'
  | _, _ => false
  end.

(** [\d{3}\.\d{3}\.\d{3}-\d{2}] *)
Definition cpfShape : list slot :=
  [D; D; D; Fixed "."; D; D; D; Fixed "."; D; D; D; Fixed "-"; D; D].

(** [\d{2}\.\d{3}\.\d{3}/\d{4}-\d{2}] *)
Definition cnpjShape : list slot :=
  [D; D; Fixed "."; D; D; D; Fixed "."; D; D; D; Fixed "/"; D; D; D; D; Fixed "-"; D; D].

(** The character of a decimal digit. *)
Definition digitChar (z : Z) : ascii := ascii_of_N (Z.to_N (48 + z)).

(** Where the templates put the 11 and the 14 digits. *)
Definition cpfLayout (cs : list ascii) : list ascii :=
  take 3 cs ++ "."%char :: take 3 (drop 3 cs) ++ "."%char
    :: take 3 (drop 6 cs) ++ "-"%char :: drop 9 cs.

Definition cnpjLayout (cs : list ascii) : list ascii :=
  take 2 cs ++ "."%char :: take 3 (drop 2 cs) ++ "."%char
    :: take 3 (drop 5 cs) ++ "/"%char :: take 4 (drop 8 cs) ++ "-"%char :: drop 12 cs.

End Check.

Import Check.

(** ** The component: clipboard copy, timers and events

    The part of [App] around the generators. The browser is present as far
    as the code touches it: the children of [document.body], the callbacks
    scheduled with [setTimeout] and the console. What
    [document.execCommand("copy")] does is the browser's choice and is a
    parameter of the call. *)

Module UI.

(** The second parameter of [copyToClipboard]: ["cpf" | "cnpj"]. *)
Inductive copyType : Type := TypeCpf | TypeCnpj.

(** [document.execCommand("copy")] returns a boolean or throws. *)
Inductive execResult : Type :=
| Returned (ok : bool)
| Threw.

(** A DOM element; [node] is its identity. *)
Record element : Type := mkElement {
  node : nat;
  tagName : string;
  value : string
}.

Record World : Type := mkWorld {
  state : AppState;
  body : list element;       (* the children of [document.body] *)
  nextNode : nat;            (* the identity of the next element created *)
  pending : list copyType;   (* [setTimeout(_, 2000)] callbacks, oldest first *)
  console : list string      (* what [console.error] printed *)
}.

Definition setCopiedCpf (b : bool) (st : AppState) : AppState :=
  {| cpf := cpf st; cnpj := cnpj st; copiedCpf := b; copiedCnpj := copiedCnpj st |}.

Definition setCopiedCnpj (b : bool) (st : AppState) : AppState :=
  {| cpf := cpf st; cnpj := cnpj st; copiedCpf := copiedCpf st; copiedCnpj := b |}.

Definition withState (f : AppState → AppState) (w : World) : World :=
  {| state := f (state w); body := body w; nextNode := nextNode w;
     pending := pending w; console := console w |}.

(** [document.createElement(tag)] *)
Definition createElement (tag : string) (w : World) : element * World :=
  ({| node := nextNode w; tagName := tag; value := "" |},
   {| state := state w; body := body w; nextNode := S (nextNode w);
      pending := pending w; console := console w |}).

(** [document.body.appendChild(e)] *)
Definition appendChild (e : element) (w : World) : World :=
  {| state := state w; body := body w ++ [e]; nextNode := nextNode w;
     pending := pending w; console := console w |}.

(** [document.body.removeChild(e)] *)
Definition removeChild (e : element) (w : World) : World :=
  {| state := state w;
     body := filter (fun x => node x ≠ node e) (body w);
     nextNode := nextNode w; pending := pending w; console := console w |}.

(** [setTimeout(() => setCopied...(false), 2000)]: every callback has the
    same delay, so callbacks run in the order they were scheduled. *)
Definition setTimeout (t : copyType) (w : World) : World :=
  {| state := state w; body := body w; nextNode := nextNode w;
     pending := pending w ++ [t]; console := console w |}.

(** [console.error(msg, err)] *)
Definition consoleError (msg : string) (w : World) : World :=
  {| state := state w; body := body w; nextNode := nextNode w;
     pending := pending w; console := console w ++ [msg] |}.

(** Lines 88-108. [r] is what [document.execCommand("copy")] does in this
    call. *)
Definition copyToClipboard (text : string) (type : copyType) (r : execResult)
    (w : World) : World :=
  match text with
  | EmptyString => w
  | String _ _ =>
      let (created, w) := createElement "textarea" w in
      let textArea :=
        {| node := node created; tagName := tagName created; value := text |} in
      let w := appendChild textArea w in
      let w :=
        match r with
        | Returned _ =>
            match type with
            | TypeCpf => setTimeout TypeCpf (withState (setCopiedCpf true) w)
            | TypeCnpj => setTimeout TypeCnpj (withState (setCopiedCnpj true) w)
            end
        | Threw => consoleError "Failed to copy text: " w
        end in
      removeChild textArea w
  end.

(** The oldest scheduled callback runs. *)
Definition timeout (w : World) : World :=
  match pending w with
  | [] => w
  | t :: rest =>
      {| state := match t with
                  | TypeCpf => setCopiedCpf false (state w)
                  | TypeCnpj => setCopiedCnpj false (state w)
                  end;
         body := body w; nextNode := nextNode w;
         pending := rest; console := console w |}
  end.

(** What can happen to the component: a click on one of the four buttons
    (lines 137, 148, 167, 178) or a timer running out. *)
Inductive event : Type :=
| GenerateCpf (draw : nat → Z)
| GenerateCnpj (draw : nat → Z)
| CopyCpf (r : execResult)
| CopyCnpj (r : execResult)
| Timeout.

Definition step (e : event) (w : World) : World :=
  match e with
  | GenerateCpf draw => withState (handleGenerateCpf draw) w
  | GenerateCnpj draw => withState (handleGenerateCnpj draw) w
  | CopyCpf r => copyToClipboard (cpf (state w)) TypeCpf r w
  | CopyCnpj r => copyToClipboard (cnpj (state w)) TypeCnpj r w
  | Timeout => timeout w
  end.

Fixpoint run (events : list event) (w : World) : World :=
  match events with
  | [] => w
  | e :: events' => run events' (step e w)
  end.

(** The component as mounted: nothing generated, nothing scheduled. *)
Definition mounted (w : World) : Prop :=
  state w = initialState ∧ pending w = [].

(** Every element of the page was created before [nextNode]. *)
Definition wellFormed (w : World) : Prop :=
  Forall (fun e => (node e < nextNode w)%nat) (body w).

(** The digits every draw of an event comes from. *)
Definition drawsDigits (e : event) : Prop :=
  match e with
  | GenerateCpf draw | GenerateCnpj draw => ∀ i, 0 ≤ draw i ≤ 9
  | _ => True
  end.

End UI.

(** ** Further definitions used by the statements *)

(** The last step of both verifiers, on the remainder of the sum. *)
Definition complement11 (sum : Z) : Z :=
  let r := sum mod 11 in
  if r <? 2 then 0 else 11 - r.

(** The flag a scheduled callback resets. *)
Definition flag (t : UI.copyType) (st : AppState) : bool :=
  match t with
  | UI.TypeCpf => copiedCpf st
  | UI.TypeCnpj => copiedCnpj st
  end.

(** Every confirmation shown has its reset scheduled. *)
Definition confirmationsScheduled (w : UI.World) : Prop :=
  ∀ t, flag t (UI.state w) = true → t ∈ UI.pending w.

(** What the two inputs show, and when a confirmation can be on. *)
Definition documentsShown (st : AppState) : Prop :=
  (cpf st = EmptyString
   ∨ (String.length (cpf st) = 14%nat ∧ matchesTemplate cpfShape (cpf st) = true))
  ∧ (cnpj st = EmptyString
     ∨ (String.length (cnpj st) = 18%nat ∧ matchesTemplate cnpjShape (cnpj st) = true))
  ∧ (copiedCpf st = true → cpf st ≠ EmptyString)
  ∧ (copiedCnpj st = true → cnpj st ≠ EmptyString).

(** Events that do not generate a document of a kind. *)
Definition keepsCpf (e : UI.event) : Prop :=
  match e with UI.GenerateCpf _ => False | _ => True end.

Definition keepsCnpj (e : UI.event) : Prop :=
  match e with UI.GenerateCnpj _ => False | _ => True end.

(** A source of digits for the examples. *)
Definition exampleDraw : nat → Z := fun i => Z.of_nat ((7 * i + 3) mod 10).

(** The component as mounted on an empty page. *)
Definition mountedPage : UI.World :=
  {| UI.state := initialState; UI.body := []; UI.nextNode := 0;
     UI.pending := []; UI.console := [] |}.

(** A world used by the examples: a page with two elements and a generated
    CPF in the state. *)
Definition examplePage : UI.World :=
  {| UI.state := handleGenerateCpf (fun i => Z.of_nat ((7 * i + 3) mod 10)) initialState;
     UI.body := [ {| UI.node := 0; UI.tagName := "div"; UI.value := "" |};
                  {| UI.node := 1; UI.tagName := "input"; UI.value := "" |} ];
     UI.nextNode := 2;
     UI.pending := [];
     UI.console := [] |}.

(** ** Definitions used by the statements *)

(** The callback of both [reduce] calls. *)
Definition step (weights : list number) : number → number → nat → number :=
  fun acc digit i => add acc (mul digit (toNumber (weights !! i))).

(** The input lengths each kind is staged for. *)
Definition staged (kind : DocumentKind) (L : nat) : Prop :=
  match kind with
  | CPF => L = 9%nat ∨ L = 10%nat
  | CNPJ => L = 12%nat ∨ L = 13%nat
  end.

(** The weight array a call builds for its input. *)
Definition weightsOf (kind : DocumentKind) (digits : list number) : list number :=
  match kind with
  | CPF => cpfWeights digits
  | CNPJ => cnpjWeights digits
  end.

(** The base digits of the scenario of section 8. *)
Definition scenario : list Z := [1; 1; 1; 4; 4; 4; 4; 7; 7].

(** The eleven digits of a generated CPF. *)
Definition cpfDigits (b : list Z) : list Z :=
  let v1 := Rule.cpfRule b in
  let v2 := Rule.cpfRule (b ++ [v1]) in
  b ++ [v1; v2].

(** The fourteen digits of a generated CNPJ. *)
Definition cnpjDigits (b : list Z) : list Z :=
  let v1 := Rule.cnpjRule b in
  let v2 := Rule.cnpjRule (b ++ [v1]) in
  b ++ [v1; v2].

(** ** Auxiliary facts *)

Section Arrays.

Context {A : Type}.

Lemma length_arrayFrom (n : nat) (f : nat → A) : length (arrayFrom n f) = n.
Proof. unfold arrayFrom. now rewrite length_map, length_seq. Qed.

Lemma lookup_arrayFrom (n : nat) (f : nat → A) (i : nat) :
  (i < n)%nat → arrayFrom n f !! i = Some (f i).
Proof.
  intros Hi. unfold arrayFrom.
  change (map f (seq 0 n)) with (f <$> seq 0 n).
  rewrite list_lookup_fmap, lookup_seq_lt by exact Hi. reflexivity.
Qed.

Lemma lookup_arrayFrom_ge (n : nat) (f : nat → A) (i : nat) :
  (n ≤ i)%nat → arrayFrom n f !! i = None.
Proof. intros Hi. apply lookup_ge_None. now rewrite length_arrayFrom. Qed.

End Arrays.

(** While the weights read are the numbers [weight j], the fold is the
    weighted sum. *)
Lemma reduceFrom_weighted (weights : list number) (weight : nat → Z) (d : list Z) :
  ∀ (i : nat) (acc : Z),
    (∀ j, (i ≤ j < i + length d)%nat → weights !! j = Some (Num (weight j))) →
    reduceFrom (step weights) i (Num <$> d) (Num acc)
    = Num (acc + Rule.weightedSumFrom weight i d).
Proof.
  induction d as [|x d IH]; intros i acc Hw; cbn [fmap list_fmap reduceFrom Rule.weightedSumFrom].
  - f_equal. lia.
  - unfold step at 2. rewrite (Hw i) by (cbn [length]; lia).
    cbn [toNumber mul add]. rewrite IH.
    + f_equal. lia.
    + intros j Hj. apply Hw. cbn [length]. lia.
Qed.

(** A weight read past the end of the table turns the sum into [NaN], and
    [NaN] it stays. *)
Lemma reduceFrom_NaN (weights : list number) (arr : list number) :
  ∀ i, reduceFrom (step weights) i arr NaN = NaN.
Proof. induction arr as [|x arr IH]; intros i; [reflexivity|]. cbn. apply IH. Qed.

Lemma weightedSumFrom_nonneg (weight : nat → Z) (d : list Z) :
  ∀ i, Forall isDigit d →
       (∀ j, (i ≤ j < i + length d)%nat → 0 ≤ weight j) →
       0 ≤ Rule.weightedSumFrom weight i d.
Proof.
  induction d as [|x d IH]; intros i Hd Hw; cbn [Rule.weightedSumFrom]; [lia|].
  inversion Hd as [|? ? Hx Hd']; subst.
  assert (0 ≤ weight i) by (apply Hw; cbn [length]; lia).
  assert (0 ≤ Rule.weightedSumFrom weight (S i) d).
  { apply IH; [assumption|]. intros j Hj. apply Hw. cbn [length]. lia. }
  unfold isDigit in Hx. nia.
Qed.

Lemma cpfWeights_lookup (d : list Z) (j : nat) :
  (j < length d)%nat →
  cpfWeights (Num <$> d) !! j = Some (Num (Rule.cpfWeight (length d) j)).
Proof.
  intros Hj. unfold cpfWeights. rewrite length_fmap.
  rewrite lookup_arrayFrom by exact Hj. reflexivity.
Qed.

(** The CPF verifier follows the rule on digit sequences of every length. *)
Lemma calculateCpfVerifier_rule (d : list Z) :
  Forall isDigit d → calculateCpfVerifier (Num <$> d) = Num (Rule.cpfRule d).
Proof.
  intros Hd. unfold calculateCpfVerifier, reduce, Rule.cpfRule, Rule.weightedSum.
  change (λ (acc digit : number) (i : nat), add acc (mul digit (toNumber (?w !! i))))
    with (step w).
  rewrite (reduceFrom_weighted _ (Rule.cpfWeight (length d))).
  2:{ intros j Hj. apply cpfWeights_lookup. lia. }
  assert (Hs : 0 ≤ Rule.weightedSumFrom (Rule.cpfWeight (length d)) 0 d).
  { apply weightedSumFrom_nonneg; [assumption|].
    intros j Hj. unfold Rule.cpfWeight. lia. }
  cbn [mul rem strictEq]. rewrite Z.add_0_l.
  change (11 =? 0) with false. cbv iota.
  rewrite Z.rem_mod_nonneg by lia.
  cbn [strictEq]. destruct (_ =? 10); reflexivity.
Qed.

Lemma cnpjWeights_aligned (digits : list number) :
  cnpjWeights digits = Num <$> Rule.cnpjAligned (length digits).
Proof.
  unfold cnpjWeights, Rule.cnpjAligned, unshift.
  destruct (Nat.eqb (length digits) 13); reflexivity.
Qed.

Lemma length_cnpjAligned (L : nat) :
  length (Rule.cnpjAligned L) = if Nat.eqb L 13 then 13%nat else 12%nat.
Proof. unfold Rule.cnpjAligned. destruct (Nat.eqb L 13); reflexivity. Qed.

Lemma cnpjWeights_lookup (d : list Z) (j : nat) :
  (length d = 12 ∨ length d = 13)%nat → (j < length d)%nat →
  cnpjWeights (Num <$> d) !! j = Some (Num (Rule.cnpjWeight (length d) j)).
Proof.
  intros HL Hj. rewrite cnpjWeights_aligned, length_fmap, list_lookup_fmap.
  unfold Rule.cnpjWeight.
  destruct (Rule.cnpjAligned (length d) !! j) as [w|] eqn:E; [reflexivity|].
  apply lookup_ge_None in E. rewrite length_cnpjAligned in E.
  destruct HL as [HL|HL]; rewrite HL in *; cbn in E; lia.
Qed.

Lemma cnpjWeight_nonneg (L j : nat) : 0 ≤ Rule.cnpjWeight L j.
Proof.
  unfold Rule.cnpjWeight.
  destruct (Rule.cnpjAligned L !! j) as [w|] eqn:E; cbn [default]; [|lia].
  apply list_elem_of_lookup_2 in E. revert E. unfold Rule.cnpjAligned, Rule.cnpjTable.
  unfold id.
  destruct (Nat.eqb L 13); cbn [app]; rewrite ?elem_of_cons, elem_of_nil; lia.
Qed.

(** The CNPJ verifier follows the rule on staged digit sequences. *)
Lemma calculateCnpjVerifier_rule (d : list Z) :
  (length d = 12 ∨ length d = 13)%nat → Forall isDigit d →
  calculateCnpjVerifier (Num <$> d) = Num (Rule.cnpjRule d).
Proof.
  intros HL Hd. unfold calculateCnpjVerifier, reduce, Rule.cnpjRule, Rule.weightedSum.
  change (λ (acc digit : number) (i : nat), add acc (mul digit (toNumber (?w !! i))))
    with (step w).
  rewrite (reduceFrom_weighted _ (Rule.cnpjWeight (length d))).
  2:{ intros j Hj. apply cnpjWeights_lookup; [assumption|lia]. }
  assert (Hs : 0 ≤ Rule.weightedSumFrom (Rule.cnpjWeight (length d)) 0 d).
  { apply weightedSumFrom_nonneg; [assumption|]. intros j _. apply cnpjWeight_nonneg. }
  cbn [rem]. rewrite Z.add_0_l.
  change (11 =? 0) with false. cbv iota.
  rewrite Z.rem_mod_nonneg by lia.
  cbn [lt]. destruct (_ <? 2); reflexivity.
Qed.

Lemma cpfRule_range (d : list Z) : 0 ≤ Rule.cpfRule d ≤ 9.
Proof.
  unfold Rule.cpfRule. cbv zeta.
  match goal with |- context [?x mod 11] => pose proof (Z.mod_pos_bound x 11 ltac:(lia)) end.
  destruct (_ =? 10) eqn:E; [lia|]. apply Z.eqb_neq in E. lia.
Qed.

Lemma cnpjRule_range (d : list Z) : 0 ≤ Rule.cnpjRule d ≤ 9.
Proof.
  unfold Rule.cnpjRule. cbv zeta.
  match goal with |- context [?x mod 11] => pose proof (Z.mod_pos_bound x 11 ltac:(lia)) end.
  destruct (_ <? 2) eqn:E; [lia|]. apply Z.ltb_ge in E. lia.
Qed.

Lemma reduceFrom_app {A B} (f : B → A → nat → B) (l1 l2 : list A) :
  ∀ i acc, reduceFrom f i (l1 ++ l2) acc
           = reduceFrom f (i + length l1) l2 (reduceFrom f i l1 acc).
Proof.
  induction l1 as [|x l1 IH]; intros i acc; cbn [app reduceFrom length].
  - now rewrite Nat.add_0_r.
  - rewrite IH. f_equal. lia.
Qed.

(** A CNPJ input longer than 13 digits reads a weight that is not there. *)
Lemma calculateCnpjVerifier_long (digits : list number) :
  (13 < length digits)%nat → calculateCnpjVerifier digits = NaN.
Proof.
  intros HL. unfold calculateCnpjVerifier, reduce.
  change (λ (acc digit : number) (i : nat), add acc (mul digit (toNumber (?w !! i))))
    with (step w).
  assert (Hw : cnpjWeights digits !! 12%nat = None).
  { apply lookup_ge_None. rewrite cnpjWeights_aligned, length_fmap, length_cnpjAligned.
    destruct (Nat.eqb_spec (length digits) 13); lia. }
  assert (Hsum : reduceFrom (step (cnpjWeights digits)) 0 digits (Num 0) = NaN).
  { revert Hw. generalize (cnpjWeights digits). intros w Hw.
    rewrite <- (take_drop 12 digits).
    rewrite reduceFrom_app, length_take, Nat.min_l by lia.
    destruct (drop 12 digits) as [|x rest] eqn:E.
    { apply (f_equal length) in E. rewrite length_drop in E. cbn in E. lia. }
    cbn [reduceFrom Nat.add]. unfold step at 2. rewrite Hw. cbn [toNumber].
    assert (Hn : ∀ a b, add a (mul b NaN) = NaN) by (intros [?|] [?|]; reflexivity).
    rewrite Hn. apply reduceFrom_NaN. }
  rewrite Hsum. reflexivity.
Qed.

(** *** Digits as characters *)

Lemma isDigit_cases (z : Z) :
  isDigit z →
  z = 0 ∨ z = 1 ∨ z = 2 ∨ z = 3 ∨ z = 4 ∨ z = 5 ∨ z = 6 ∨ z = 7 ∨ z = 8 ∨ z = 9.
Proof. unfold isDigit. lia. Qed.

Ltac each_digit H :=
  apply isDigit_cases in H;
  repeat (destruct H as [H|H]; [subst; vm_compute; reflexivity|]);
  subst; vm_compute; reflexivity.

Lemma toString_digit (z : Z) :
  isDigit z → toString (Num z) = String (digitChar z) EmptyString.
Proof. intros H. each_digit H. Qed.

Lemma isDigitChar_digitChar (z : Z) : isDigit z → isDigitChar (digitChar z) = true.
Proof. intros H. each_digit H. Qed.

Lemma digitValue_digitChar (z : Z) : isDigit z → digitValue (digitChar z) = z.
Proof. intros H. each_digit H. Qed.

Lemma digit_not_punctuation (c : ascii) : isDigitChar c = true → isPunctuation c = false.
Proof.
  destruct c as [[] [] [] [] [] [] [] []]; vm_compute; intros H;
    first [reflexivity | discriminate H].
Qed.

Lemma join_digits (d : list Z) :
  Forall isDigit d → join (Num <$> d) = string_of_list_ascii (digitChar <$> d).
Proof.
  induction 1 as [|z d Hz Hd IH]; [reflexivity|].
  cbn [fmap list_fmap join foldr string_of_list_ascii].
  rewrite (toString_digit z Hz). cbn [String.append]. f_equal. exact IH.
Qed.

Lemma digitsOf_digits (d : list Z) :
  Forall isDigit d → digitsOf (string_of_list_ascii (digitChar <$> d)) = d.
Proof.
  intros Hd. unfold digitsOf. rewrite list_ascii_of_string_of_list_ascii.
  induction Hd as [|z d Hz Hd IH]; [reflexivity|].
  cbn [fmap list_fmap] in *. now rewrite digitValue_digitChar, IH.
Qed.

Lemma digitChars_all (d : list Z) :
  Forall isDigit d → forallb isDigitChar (digitChar <$> d) = true.
Proof.
  induction 1 as [|z d Hz Hd IH]; [reflexivity|].
  cbn [fmap list_fmap forallb]. now rewrite isDigitChar_digitChar, IH.
Qed.

(** *** The templates on a string of digits *)

Ltac explicit_chars cs Hlen Hall :=
  repeat (destruct cs as [|? cs]; [discriminate Hlen|]);
  destruct cs; [|discriminate Hlen];
  cbn [forallb] in Hall;
  repeat (apply andb_prop in Hall; destruct Hall as [? Hall]).

#[local] Arguments isDigitChar : simpl never.
#[local] Arguments isPunctuation : simpl never.

(** Evaluate a matcher on characters known to be digits. *)
Ltac use_digit_chars :=
  repeat (cbn;
          match goal with
          | H : isDigitChar ?c = true |- context [isDigitChar ?c] => rewrite !H
          | H : isDigitChar ?c = true |- context [isPunctuation ?c] =>
              rewrite !(digit_not_punctuation _ H)
          end);
  cbn.

Lemma replace_cpf (cs : list ascii) :
  length cs = 11%nat → forallb isDigitChar cs = true →
  replace cpfPattern cpfTemplate (string_of_list_ascii cs)
  = string_of_list_ascii (cpfLayout cs).
Proof.
  intros Hlen Hall. explicit_chars cs Hlen Hall.
  use_digit_chars. reflexivity.
Qed.

Lemma replace_cnpj (cs : list ascii) :
  length cs = 14%nat → forallb isDigitChar cs = true →
  replace cnpjPattern cnpjTemplate (string_of_list_ascii cs)
  = string_of_list_ascii (cnpjLayout cs).
Proof.
  intros Hlen Hall. explicit_chars cs Hlen Hall.
  use_digit_chars. reflexivity.
Qed.

Lemma cpfLayout_shape (cs : list ascii) :
  length cs = 11%nat → forallb isDigitChar cs = true →
  String.length (string_of_list_ascii (cpfLayout cs)) = 14%nat
  ∧ matchesTemplate cpfShape (string_of_list_ascii (cpfLayout cs)) = true
  ∧ stripPunctuation (string_of_list_ascii (cpfLayout cs)) = string_of_list_ascii cs.
Proof.
  intros Hlen Hall. explicit_chars cs Hlen Hall.
  use_digit_chars. repeat split.
Qed.

Lemma cnpjLayout_shape (cs : list ascii) :
  length cs = 14%nat → forallb isDigitChar cs = true →
  String.length (string_of_list_ascii (cnpjLayout cs)) = 18%nat
  ∧ matchesTemplate cnpjShape (string_of_list_ascii (cnpjLayout cs)) = true
  ∧ stripPunctuation (string_of_list_ascii (cnpjLayout cs)) = string_of_list_ascii cs.
Proof.
  intros Hlen Hall. explicit_chars cs Hlen Hall.
  use_digit_chars. repeat split.
Qed.

(** ** The verifier rules *)

(** C1. On a digit sequence of length L = 9 or L = 10 the CPF verifier is
    the rule of the specification: weights L + 1 - i, remainder
    (sum * 10) mod 11, and remainder 10 mapped to 0. *)
Theorem cpf_verifier_rule (d : list Z) :
  Forall isDigit d → (length d = 9 ∨ length d = 10)%nat →
  calculateCpfVerifier (Num <$> d) = Num (Rule.cpfRule d).
Proof. intros Hd _. apply calculateCpfVerifier_rule. exact Hd. Qed.

Lemma cpf_verifier_rule_witness :
  calculateCpfVerifier (Num <$> [5; 2; 9; 9; 8; 2; 2; 4; 7])
  = Num (Rule.cpfRule [5; 2; 9; 9; 8; 2; 2; 4; 7]).
Proof.
  apply (cpf_verifier_rule [5; 2; 9; 9; 8; 2; 2; 4; 7]).
  - repeat constructor; unfold isDigit; lia.
  - left. reflexivity.
Defined.

(** C2. On a digit sequence of length 12 or 13 the CNPJ verifier is the rule
    of the specification: the table on the last 12 positions, weight 6 in
    front for 13 digits, remainder sum mod 11, result 0 below 2 and
    11 - remainder otherwise. *)
Theorem cnpj_verifier_rule (d : list Z) :
  Forall isDigit d → (length d = 12 ∨ length d = 13)%nat →
  calculateCnpjVerifier (Num <$> d) = Num (Rule.cnpjRule d).
Proof. intros Hd HL. apply calculateCnpjVerifier_rule; assumption. Qed.

Lemma cnpj_verifier_rule_witness :
  calculateCnpjVerifier (Num <$> [1; 1; 4; 4; 4; 7; 7; 7; 0; 0; 0; 1; 6])
  = Num (Rule.cnpjRule [1; 1; 4; 4; 4; 7; 7; 7; 0; 0; 0; 1; 6]).
Proof.
  apply (cnpj_verifier_rule [1; 1; 4; 4; 4; 7; 7; 7; 0; 0; 0; 1; 6]).
  - repeat constructor; unfold isDigit; lia.
  - right. reflexivity.
Defined.

(** C5. On a staged digit sequence (9 or 10 digits for CPF, 12 or 13 for
    CNPJ) the verifier is an integer between 0 and 9. *)
Theorem verifier_in_range (kind : DocumentKind) (d : list Z) :
  Forall isDigit d → staged kind (length d) →
  ∃ v, computeVerifier kind (Num <$> d) = Num v ∧ 0 ≤ v ≤ 9.
Proof.
  intros Hd HL. destruct kind; cbn [computeVerifier staged] in *.
  - exists (Rule.cpfRule d). split.
    + now apply calculateCpfVerifier_rule.
    + apply cpfRule_range.
  - exists (Rule.cnpjRule d). split.
    + now apply calculateCnpjVerifier_rule.
    + apply cnpjRule_range.
Qed.

Lemma verifier_in_range_witness :
  ∃ v, computeVerifier CNPJ (Num <$> [9; 9; 9; 9; 9; 9; 9; 9; 9; 9; 9; 9]) = Num v
       ∧ 0 ≤ v ≤ 9.
Proof.
  apply (verifier_in_range CNPJ [9; 9; 9; 9; 9; 9; 9; 9; 9; 9; 9; 9]).
  - repeat constructor; unfold isDigit; lia.
  - left. reflexivity.
Defined.

(** The weighting [9 - i] is not the weighting of the code: the two give
    different digits as soon as the digit sum is not a multiple of 11. *)
Lemma scenarioRule_differs :
  calculateCpfVerifier (Num <$> [1; 0; 0; 0; 0; 0; 0; 0; 0]) = Num 1
  ∧ Rule.scenarioRule [1; 0; 0; 0; 0; 0; 0; 0; 0] = 2.
Proof. split; reflexivity. Qed.

(** The array the code builds for the nine digits of the scenario: the
    weights L + 1 - i with L = 9, from 10 down to 2. *)
Lemma scenario_weights :
  cpfWeights (Num <$> scenario) = Num <$> [10; 9; 8; 7; 6; 5; 4; 3; 2]
  ∧ calculateCpfVerifier (Num <$> scenario) = Num 4
  ∧ Rule.cpfRule scenario = 4
  ∧ Rule.scenarioRule scenario = 4.
Proof. repeat split; reflexivity. Qed.

Lemma weightedSumFrom_ext (w1 w2 : nat → Z) (d : list Z) :
  ∀ i, (∀ j, (i ≤ j < i + length d)%nat → w1 j = w2 j) →
       Rule.weightedSumFrom w1 i d = Rule.weightedSumFrom w2 i d.
Proof.
  induction d as [|x d IH]; intros i Hw; cbn [Rule.weightedSumFrom]; [reflexivity|].
  rewrite (Hw i) by (cbn [length]; lia).
  rewrite (IH (S i)); [reflexivity|]. intros j Hj. apply Hw. cbn [length]. lia.
Qed.

(** Raising every weight by one adds the sum of the digits. *)
Lemma weightedSumFrom_succ (w : nat → Z) (d : list Z) :
  ∀ i, Rule.weightedSumFrom (fun j => w j + 1) i d
       = Rule.weightedSumFrom w i d + foldr Z.add 0 d.
Proof.
  induction d as [|x d IH]; intros i; cbn [Rule.weightedSumFrom foldr]; [reflexivity|].
  rewrite IH. lia.
Qed.

(** On nine digits whose sum is a multiple of 11, the weights 10 - i of the
    code and the weights 9 - i give the same verifier. *)
Lemma nine_digits_sum_multiple_of_11 (d : list Z) :
  Forall isDigit d → length d = 9%nat → foldr Z.add 0 d mod 11 = 0 →
  calculateCpfVerifier (Num <$> d) = Num (Rule.scenarioRule d).
Proof.
  intros Hd HL Hs. rewrite (calculateCpfVerifier_rule d Hd). f_equal.
  unfold Rule.cpfRule, Rule.scenarioRule, Rule.weightedSum. cbv zeta. rewrite HL.
  rewrite (weightedSumFrom_ext (Rule.cpfWeight 9) (fun j => (9 - Z.of_nat j) + 1)).
  2:{ intros j _. unfold Rule.cpfWeight. lia. }
  rewrite weightedSumFrom_succ.
  set (S9 := Rule.weightedSumFrom (λ i : nat, 9 - Z.of_nat i) 0 d).
  set (T := foldr Z.add 0 d) in *.
  assert (E : ((S9 + T) * 10) mod 11 = (S9 * 10) mod 11).
  { apply Z.mod_divide in Hs; [|lia]. destruct Hs as [k Hk]. rewrite Hk.
    replace ((S9 + k * 11) * 10) with (S9 * 10 + (k * 10) * 11) by lia.
    apply Z.mod_add. lia. }
  rewrite E. reflexivity.
Qed.

(** C8. For the base digits [1,1,1,4,4,4,4,7,7] the CPF verifier is the
    value obtained with the weight vector [9,8,7,6,5,4,3,2,1], that is weight
    9 - i at position i, remainder (sum * 10) mod 11 and remainder 10 mapped
    to 0. *)
Theorem scenario_verifier :
  (fun i => 9 - Z.of_nat i) <$> seq 0 (length scenario) = [9; 8; 7; 6; 5; 4; 3; 2; 1]
  ∧ calculateCpfVerifier (Num <$> scenario) = Num (Rule.scenarioRule scenario).
Proof.
  split; [reflexivity|].
  apply nine_digits_sum_multiple_of_11.
  - unfold scenario. repeat (apply Forall_cons; split; [unfold isDigit; lia|]).
    apply Forall_nil_2.
  - reflexivity.
  - reflexivity.
Qed.

(** C10. With 12 or 13 digits the CNPJ weight table has as many entries as
    the input, every index read is in bounds and the verifier of a digit
    sequence is a digit; with more than 13 digits some index is out of
    bounds and the result is NaN. The CPF weight array has the length of its
    input whatever that length is, every index read is in bounds, the
    verifier of a digit sequence is a digit, and the verifier of the empty
    sequence is 0. *)
Theorem weight_lookups_in_bounds (digits : list number) :
  ((length digits = 12 ∨ length digits = 13)%nat →
     length (cnpjWeights digits) = length digits
     ∧ (∀ i, (i < length digits)%nat → is_Some (cnpjWeights digits !! i))
     ∧ (∀ d : list Z, digits = Num <$> d → Forall isDigit d →
          ∃ v, calculateCnpjVerifier digits = Num v ∧ 0 ≤ v ≤ 9))
  ∧ ((13 < length digits)%nat →
     (∃ i, (i < length digits)%nat ∧ cnpjWeights digits !! i = None)
     ∧ calculateCnpjVerifier digits = NaN)
  ∧ length (cpfWeights digits) = length digits
  ∧ (∀ i, (i < length digits)%nat → is_Some (cpfWeights digits !! i))
  ∧ (∀ d : list Z, digits = Num <$> d → Forall isDigit d →
       ∃ v, calculateCpfVerifier digits = Num v ∧ 0 ≤ v ≤ 9)
  ∧ calculateCpfVerifier [] = Num 0.
Proof.
  assert (Hc : length (cpfWeights digits) = length digits)
    by apply length_arrayFrom.
  repeat apply conj.
  - intros HL.
    assert (Hn : length (cnpjWeights digits) = length digits).
    { rewrite cnpjWeights_aligned, length_fmap, length_cnpjAligned.
      destruct HL as [HL|HL]; rewrite HL; reflexivity. }
    repeat apply conj.
    + exact Hn.
    + intros i Hi. apply lookup_lt_is_Some. lia.
    + intros d -> Hd. rewrite length_fmap in HL.
      exists (Rule.cnpjRule d). split.
      * now apply calculateCnpjVerifier_rule.
      * apply cnpjRule_range.
  - intros HL. split; [|now apply calculateCnpjVerifier_long].
    exists 12%nat. split; [lia|]. apply lookup_ge_None.
    rewrite cnpjWeights_aligned, length_fmap, length_cnpjAligned.
    destruct (Nat.eqb_spec (length digits) 13); lia.
  - exact Hc.
  - intros i Hi. apply lookup_lt_is_Some. lia.
  - intros d -> Hd. exists (Rule.cpfRule d). split.
    + now apply calculateCpfVerifier_rule.
    + apply cpfRule_range.
  - reflexivity.
Qed.

Lemma weight_lookups_in_bounds_witness :
  length (cnpjWeights (Num <$> [3; 1; 4; 1; 5; 9; 2; 6; 5; 3; 5; 8; 9])) = 13%nat
  ∧ calculateCnpjVerifier (Num <$> [3; 1; 4; 1; 5; 9; 2; 6; 5; 3; 5; 8; 9; 7]) = NaN.
Proof.
  split.
  - refine (proj1 (proj1 (weight_lookups_in_bounds
                    (Num <$> [3; 1; 4; 1; 5; 9; 2; 6; 5; 3; 5; 8; 9])) _)).
    right. reflexivity.
  - refine (proj2 (proj1 (proj2 (weight_lookups_in_bounds
                    (Num <$> [3; 1; 4; 1; 5; 9; 2; 6; 5; 3; 5; 8; 9; 7]))) _)).
    cbn. lia.
Defined.

(** C7. Nine zeros give the CPF 000.000.000-00 and twelve zeros the CNPJ
    00.000.000/0000-00: both verifiers are 0 and the document has the shape
    of its kind. *)
Theorem all_zero_documents :
  calculateCpfVerifier (Num <$> replicate 9 0) = Num 0
  ∧ calculateCpfVerifier ((Num <$> replicate 9 0) ++ [Num 0]) = Num 0
  ∧ generateCpf (Num <$> replicate 9 0) = "000.000.000-00"%string
  ∧ matchesTemplate cpfShape (generateCpf (Num <$> replicate 9 0)) = true
  ∧ calculateCnpjVerifier (Num <$> replicate 12 0) = Num 0
  ∧ calculateCnpjVerifier ((Num <$> replicate 12 0) ++ [Num 0]) = Num 0
  ∧ generateCnpj (Num <$> replicate 12 0) = "00.000.000/0000-00"%string
  ∧ matchesTemplate cnpjShape (generateCnpj (Num <$> replicate 12 0)) = true
  ∧ (∀ st, cpf (handleGenerateCpf (fun _ => 0) st) = "000.000.000-00"%string)
  ∧ (∀ st, cnpj (handleGenerateCnpj (fun _ => 0) st) = "00.000.000/0000-00"%string).
Proof. repeat split; vm_compute; reflexivity. Qed.

(** ** The generated documents *)

Lemma isDigit_cpfRule (d : list Z) : isDigit (Rule.cpfRule d).
Proof. apply cpfRule_range. Qed.

Lemma isDigit_cnpjRule (d : list Z) : isDigit (Rule.cnpjRule d).
Proof. apply cnpjRule_range. Qed.

Lemma cpfDigits_digits (b : list Z) : Forall isDigit b → Forall isDigit (cpfDigits b).
Proof.
  intros Hb. unfold cpfDigits. cbv zeta. apply Forall_app. split; [exact Hb|].
  apply Forall_cons; split; [apply isDigit_cpfRule|]. apply Forall_singleton, isDigit_cpfRule.
Qed.

Lemma cnpjDigits_digits (b : list Z) : Forall isDigit b → Forall isDigit (cnpjDigits b).
Proof.
  intros Hb. unfold cnpjDigits. cbv zeta. apply Forall_app. split; [exact Hb|].
  apply Forall_cons; split; [apply isDigit_cnpjRule|]. apply Forall_singleton, isDigit_cnpjRule.
Qed.

Lemma generateCpf_layout (b : list Z) :
  Forall isDigit b → length b = 9%nat →
  generateCpf (Num <$> b)
  = string_of_list_ascii (cpfLayout (digitChar <$> cpfDigits b)).
Proof.
  intros Hb HL. unfold generateCpf. cbv zeta.
  rewrite (calculateCpfVerifier_rule b Hb).
  change ((Num <$> b) ++ [Num (Rule.cpfRule b)])
    with ((Num <$> b) ++ (Num <$> [Rule.cpfRule b])).
  rewrite <- fmap_app, calculateCpfVerifier_rule.
  2:{ apply Forall_app. split; [exact Hb|]. apply Forall_singleton, isDigit_cpfRule. }
  change ((Num <$> b) ++ [Num (Rule.cpfRule b); Num (Rule.cpfRule (b ++ [Rule.cpfRule b]))])
    with ((Num <$> b) ++ (Num <$> [Rule.cpfRule b; Rule.cpfRule (b ++ [Rule.cpfRule b])])).
  rewrite <- fmap_app. fold (cpfDigits b).
  rewrite join_digits by now apply cpfDigits_digits.
  apply replace_cpf.
  - rewrite length_fmap. unfold cpfDigits. cbv zeta. rewrite length_app, HL. reflexivity.
  - apply digitChars_all. now apply cpfDigits_digits.
Qed.

Lemma generateCnpj_layout (b : list Z) :
  Forall isDigit b → length b = 12%nat →
  generateCnpj (Num <$> b)
  = string_of_list_ascii (cnpjLayout (digitChar <$> cnpjDigits b)).
Proof.
  intros Hb HL. unfold generateCnpj. cbv zeta.
  rewrite (calculateCnpjVerifier_rule b (or_introl HL) Hb).
  change ((Num <$> b) ++ [Num (Rule.cnpjRule b)])
    with ((Num <$> b) ++ (Num <$> [Rule.cnpjRule b])).
  rewrite <- fmap_app.
  rewrite (calculateCnpjVerifier_rule (b ++ [Rule.cnpjRule b])).
  2:{ right. rewrite length_app, HL. reflexivity. }
  2:{ apply Forall_app. split; [exact Hb|]. apply Forall_singleton, isDigit_cnpjRule. }
  change ((Num <$> b) ++ [Num (Rule.cnpjRule b); Num (Rule.cnpjRule (b ++ [Rule.cnpjRule b]))])
    with ((Num <$> b) ++ (Num <$> [Rule.cnpjRule b; Rule.cnpjRule (b ++ [Rule.cnpjRule b])])).
  rewrite <- fmap_app. fold (cnpjDigits b).
  rewrite join_digits by now apply cnpjDigits_digits.
  apply replace_cnpj.
  - rewrite length_fmap. unfold cnpjDigits. cbv zeta. rewrite length_app, HL. reflexivity.
  - apply digitChars_all. now apply cnpjDigits_digits.
Qed.

Lemma length_string_of_list_ascii (cs : list ascii) :
  String.length (string_of_list_ascii cs) = length cs.
Proof. induction cs as [|c cs IH]; cbn; [reflexivity|]. now rewrite IH. Qed.

Lemma randomDigits_digits (draw : nat → Z) (n : nat) :
  (∀ i, isDigit (draw i)) →
  ∃ b, randomDigits draw n = Num <$> b ∧ Forall isDigit b ∧ length b = n.
Proof.
  intros Hd. exists (draw <$> seq 0 n). repeat split.
  - unfold randomDigits, arrayFrom. rewrite <- list_fmap_compose. reflexivity.
  - apply Forall_fmap, Forall_forall. intros i _. apply Hd.
  - now rewrite length_fmap, length_seq.
Qed.

(** C3. The CPF generated from nine base digits, once its punctuation is
    removed, is a string of exactly 11 digits that starts with the base
    digits; the CPF rule on the first 9 gives the 10th, and on the first 9
    followed by that verifier gives the 11th. *)
Theorem cpf_verifiers_recomputed (b : list Z) :
  Forall isDigit b → length b = 9%nat →
  let s := stripPunctuation (generateCpf (Num <$> b)) in
  let ds := digitsOf s in
  String.length s = 11%nat
  ∧ allDigits s = true
  ∧ take 9 ds = b
  ∧ ds !! 9%nat = Some (Rule.cpfRule (take 9 ds))
  ∧ ds !! 10%nat = Some (Rule.cpfRule (take 9 ds ++ [Rule.cpfRule (take 9 ds)])).
Proof.
  intros Hb HL s ds. subst s ds.
  assert (Hds : Forall isDigit (cpfDigits b)) by now apply cpfDigits_digits.
  assert (Hlen : length (digitChar <$> cpfDigits b) = 11%nat).
  { rewrite length_fmap. unfold cpfDigits. cbv zeta. rewrite length_app, HL. reflexivity. }
  rewrite generateCpf_layout by assumption.
  destruct (cpfLayout_shape _ Hlen (digitChars_all _ Hds)) as (_ & _ & ->).
  rewrite digitsOf_digits by assumption.
  assert (Ht : take 9 (cpfDigits b) = b).
  { unfold cpfDigits. cbv zeta. rewrite take_app_length'; [reflexivity|now rewrite HL]. }
  rewrite Ht. repeat apply conj.
  - now rewrite length_string_of_list_ascii.
  - unfold allDigits. rewrite list_ascii_of_string_of_list_ascii. now apply digitChars_all.
  - reflexivity.
  - unfold cpfDigits. cbv zeta. rewrite lookup_app_r by lia. now rewrite HL.
  - unfold cpfDigits. cbv zeta. rewrite lookup_app_r by lia. now rewrite HL.
Qed.

Lemma cpf_verifiers_recomputed_witness :
  let s := stripPunctuation (generateCpf (Num <$> [5; 2; 9; 9; 8; 2; 2; 4; 7])) in
  let ds := digitsOf s in
  String.length s = 11%nat
  ∧ allDigits s = true
  ∧ take 9 ds = [5; 2; 9; 9; 8; 2; 2; 4; 7]
  ∧ ds !! 9%nat = Some (Rule.cpfRule (take 9 ds))
  ∧ ds !! 10%nat = Some (Rule.cpfRule (take 9 ds ++ [Rule.cpfRule (take 9 ds)])).
Proof.
  apply (cpf_verifiers_recomputed [5; 2; 9; 9; 8; 2; 2; 4; 7]).
  - repeat constructor; unfold isDigit; lia.
  - reflexivity.
Defined.

(** C4. The CNPJ generated from twelve base digits, once its punctuation is
    removed, is a string of exactly 14 digits that starts with the base
    digits; the CNPJ rule on the first 12 gives the 13th, and on the first
    12 followed by that verifier gives the 14th. *)
Theorem cnpj_verifiers_recomputed (b : list Z) :
  Forall isDigit b → length b = 12%nat →
  let s := stripPunctuation (generateCnpj (Num <$> b)) in
  let ds := digitsOf s in
  String.length s = 14%nat
  ∧ allDigits s = true
  ∧ take 12 ds = b
  ∧ ds !! 12%nat = Some (Rule.cnpjRule (take 12 ds))
  ∧ ds !! 13%nat = Some (Rule.cnpjRule (take 12 ds ++ [Rule.cnpjRule (take 12 ds)])).
Proof.
  intros Hb HL s ds. subst s ds.
  assert (Hds : Forall isDigit (cnpjDigits b)) by now apply cnpjDigits_digits.
  assert (Hlen : length (digitChar <$> cnpjDigits b) = 14%nat).
  { rewrite length_fmap. unfold cnpjDigits. cbv zeta. rewrite length_app, HL. reflexivity. }
  rewrite generateCnpj_layout by assumption.
  destruct (cnpjLayout_shape _ Hlen (digitChars_all _ Hds)) as (_ & _ & ->).
  rewrite digitsOf_digits by assumption.
  assert (Ht : take 12 (cnpjDigits b) = b).
  { unfold cnpjDigits. cbv zeta. rewrite take_app_length'; [reflexivity|now rewrite HL]. }
  rewrite Ht. repeat apply conj.
  - now rewrite length_string_of_list_ascii.
  - unfold allDigits. rewrite list_ascii_of_string_of_list_ascii. now apply digitChars_all.
  - reflexivity.
  - unfold cnpjDigits. cbv zeta. rewrite lookup_app_r by lia. now rewrite HL.
  - unfold cnpjDigits. cbv zeta. rewrite lookup_app_r by lia. now rewrite HL.
Qed.

Lemma cnpj_verifiers_recomputed_witness :
  let s := stripPunctuation (generateCnpj (Num <$> [1; 1; 4; 4; 4; 7; 7; 7; 0; 0; 0; 1])) in
  let ds := digitsOf s in
  String.length s = 14%nat
  ∧ allDigits s = true
  ∧ take 12 ds = [1; 1; 4; 4; 4; 7; 7; 7; 0; 0; 0; 1]
  ∧ ds !! 12%nat = Some (Rule.cnpjRule (take 12 ds))
  ∧ ds !! 13%nat = Some (Rule.cnpjRule (take 12 ds ++ [Rule.cnpjRule (take 12 ds)])).
Proof.
  apply (cnpj_verifiers_recomputed [1; 1; 4; 4; 4; 7; 7; 7; 0; 0; 0; 1]).
  - repeat constructor; unfold isDigit; lia.
  - reflexivity.
Defined.

(** C6. Whatever digits the random source draws and whatever the state of
    the component, the CPF a generation call stores is a 14-character string
    of the form DDD.DDD.DDD-DD, and the CNPJ an 18-character string of the
    form DD.DDD.DDD/DDDD-DD. *)
Theorem formatted_documents_shape (draw : nat → Z) (st : AppState) :
  (∀ i, isDigit (draw i)) →
  (String.length (cpf (handleGenerateCpf draw st)) = 14%nat
   ∧ matchesTemplate cpfShape (cpf (handleGenerateCpf draw st)) = true)
  ∧ (String.length (cnpj (handleGenerateCnpj draw st)) = 18%nat
     ∧ matchesTemplate cnpjShape (cnpj (handleGenerateCnpj draw st)) = true).
Proof.
  intros Hd. split.
  - cbn [handleGenerateCpf cpf].
    destruct (randomDigits_digits draw 9 Hd) as (b & -> & Hb & HL).
    rewrite generateCpf_layout by assumption.
    assert (Hds : Forall isDigit (cpfDigits b)) by now apply cpfDigits_digits.
    assert (Hlen : length (digitChar <$> cpfDigits b) = 11%nat).
    { rewrite length_fmap. unfold cpfDigits. cbv zeta. rewrite length_app, HL. reflexivity. }
    destruct (cpfLayout_shape _ Hlen (digitChars_all _ Hds)) as (H1 & H2 & _).
    split; assumption.
  - cbn [handleGenerateCnpj cnpj].
    destruct (randomDigits_digits draw 12 Hd) as (b & -> & Hb & HL).
    rewrite generateCnpj_layout by assumption.
    assert (Hds : Forall isDigit (cnpjDigits b)) by now apply cnpjDigits_digits.
    assert (Hlen : length (digitChar <$> cnpjDigits b) = 14%nat).
    { rewrite length_fmap. unfold cnpjDigits. cbv zeta. rewrite length_app, HL. reflexivity. }
    destruct (cnpjLayout_shape _ Hlen (digitChars_all _ Hds)) as (H1 & H2 & _).
    split; assumption.
Qed.

Lemma formatted_documents_shape_witness :
  (String.length
     (cpf (handleGenerateCpf (fun i => Z.of_nat ((7 * i + 3) mod 10)) initialState)) = 14%nat
   ∧ matchesTemplate cpfShape
       (cpf (handleGenerateCpf (fun i => Z.of_nat ((7 * i + 3) mod 10)) initialState)) = true)
  ∧ (String.length
       (cnpj (handleGenerateCnpj (fun i => Z.of_nat ((7 * i + 3) mod 10)) initialState)) = 18%nat
     ∧ matchesTemplate cnpjShape
         (cnpj (handleGenerateCnpj (fun i => Z.of_nat ((7 * i + 3) mod 10)) initialState)) = true).
Proof.
  apply (formatted_documents_shape (fun i => Z.of_nat ((7 * i + 3) mod 10)) initialState).
  intros i. unfold isDigit.
  pose proof (Nat.mod_upper_bound (7 * i + 3) 10). lia.
Defined.

(** ** Calls over the store *)

Section StoreRuns.

Import Store.Notations.

Implicit Types (h : gmap Store.loc (list number)) (p w : Store.loc).

Lemma fresh_lookup h : h !! fresh (dom h) = None.
Proof. apply not_elem_of_dom, is_fresh. Qed.

Lemma fresh_ne h p (v : list number) : h !! p = Some v → p ≠ fresh (dom h).
Proof. intros Hp ->. rewrite fresh_lookup in Hp. discriminate Hp. Qed.

Lemma reduceFromM_run h w (ws arr : list number) :
  h !! w = Some ws →
  ∀ i acc,
    Store.reduceFromM (fun acc digit i =>
                   let* x := Store.getIndex w i in
                   Store.ret (add acc (mul digit (toNumber x)))) i arr acc h
    = Some (reduceFrom (step ws) i arr acc, h).
Proof.
  intros Hw. induction arr as [|x arr IH]; intros i acc; [reflexivity|].
  cbn [Store.reduceFromM reduceFrom]. unfold Store.bind at 1.
  unfold Store.getIndex, Store.readArray, Store.bind, Store.ret. rewrite Hw.
  apply IH.
Qed.

Lemma calculateCpfVerifier_run h p (ds : list number) :
  h !! p = Some ds →
  Store.calculateCpfVerifier p h
  = Some (calculateCpfVerifier ds, <[fresh (dom h) := cpfWeights ds]> h).
Proof.
  intros Hp. pose proof (fresh_ne h p ds Hp) as Hne.
  unfold Store.calculateCpfVerifier, Store.arrayLength, Store.reduceM, Store.newArray, Store.readArray.
  unfold Store.bind at 1 2. rewrite Hp. unfold Store.ret at 1.
  unfold Store.bind at 1. fold (cpfWeights ds).
  unfold Store.bind at 1 2. rewrite lookup_insert_ne by congruence. rewrite Hp.
  rewrite (reduceFromM_run _ _ (cpfWeights ds)) by apply lookup_insert_eq.
  reflexivity.
Qed.

Lemma calculateCnpjVerifier_run h p (ds : list number) :
  h !! p = Some ds →
  Store.calculateCnpjVerifier p h
  = Some (calculateCnpjVerifier ds, <[fresh (dom h) := cnpjWeights ds]> h).
Proof.
  intros Hp. pose proof (fresh_ne h p ds Hp) as Hne.
  unfold Store.calculateCnpjVerifier, Store.arrayLength, Store.reduceM, Store.newArray, Store.readArray, Store.unshiftAt.
  unfold Store.bind at 1. unfold Store.bind at 1 2.
  rewrite lookup_insert_ne by congruence. rewrite Hp. unfold Store.ret at 1.
  unfold Store.bind at 1.
  assert (Hw : ∀ h2 : gmap Store.loc (list number),
             h2 !! fresh (dom h) = Some (cnpjWeights ds) → h2 !! p = Some ds →
             (let* sum := (let* arr := (fun h0 => match h0 !! p with
                                                  | Some v => Some (v, h0)
                                                  | None => None
                                                  end) in
                           Store.reduceFromM (fun acc digit i =>
                                          let* x := Store.getIndex (fresh (dom h)) i in
                                          Store.ret (add acc (mul digit (toNumber x))))
                                       0 arr (Num 0)) in
              Store.ret (if lt (rem sum (Num 11)) (Num 2)
                   then Num 0 else sub (Num 11) (rem sum (Num 11)))) h2
             = Some (calculateCnpjVerifier ds, h2)).
  { intros h2 H1 H2. unfold Store.bind at 1 2. rewrite H2.
    rewrite (reduceFromM_run _ _ (cnpjWeights ds)) by exact H1. reflexivity. }
  unfold cnpjWeights in *. cbv zeta in *.
  destruct (Nat.eqb (length ds) 13).
  - rewrite lookup_insert_eq, insert_insert_eq.
    apply Hw; [apply lookup_insert_eq|]. now rewrite lookup_insert_ne by congruence.
  - unfold Store.ret at 1.
    apply Hw; [apply lookup_insert_eq|]. now rewrite lookup_insert_ne by congruence.
Qed.

Lemma computeVerifier_run (kind : DocumentKind) h p (ds : list number) :
  h !! p = Some ds →
  Store.computeVerifier kind p h
  = Some (computeVerifier kind ds, <[fresh (dom h) := weightsOf kind ds]> h).
Proof.
  destruct kind; [apply calculateCpfVerifier_run | apply calculateCnpjVerifier_run].
Qed.

(** A call leaves every array of the store as it found it. *)
Lemma computeVerifier_frame (kind : DocumentKind) h p (ds : list number) :
  h !! p = Some ds → h ⊆ <[fresh (dom h) := weightsOf kind ds]> h.
Proof. intros _. apply insert_subseteq, fresh_lookup. Qed.

(** Any sequence of calls on arrays of the store runs to its end and leaves
    every array of the store as it found it. *)
Lemma runCalls_frame (calls : list (DocumentKind * Store.loc)) :
  ∀ h, (∀ c, c ∈ calls → is_Some (h !! c.2)) →
       ∃ rs h', Store.runCalls calls h = Some (rs, h') ∧ h ⊆ h'.
Proof.
  induction calls as [|[kind p] calls IH]; intros h Hc.
  - exists [], h. split; reflexivity.
  - destruct (Hc (kind, p)) as [ds Hp]; [left|]. cbn [snd] in Hp.
    pose proof (computeVerifier_frame kind h p ds Hp) as Hsub.
    destruct (IH (<[fresh (dom h) := weightsOf kind ds]> h)) as (rs & h' & Hr & Hsub').
    { intros c Hin. destruct (Hc c) as [v Hv]; [now right|].
      exists v. eapply lookup_weaken; eassumption. }
    exists (computeVerifier kind ds :: rs), h'. split.
    + cbn [Store.runCalls]. unfold Store.bind at 1.
      rewrite (computeVerifier_run kind h p ds Hp).
      unfold Store.bind. rewrite Hr. reflexivity.
    + etrans; eassumption.
Qed.

End StoreRuns.

(** A 13-digit CNPJ call followed by a 12-digit one: the second call reads
    a table of its own, with 12 entries, and returns the digit of the
    12-digit input. *)
Example unshift_is_local :
  let h : gmap Store.loc (list number) :=
    {[ 0%nat := Num <$> [1; 1; 4; 4; 4; 7; 7; 7; 0; 0; 0; 1; 6];
       1%nat := Num <$> [1; 1; 4; 4; 4; 7; 7; 7; 0; 0; 0; 1] ]} in
  ∃ h',
    Store.runCalls [(CNPJ, 0%nat); (CNPJ, 1%nat)] h = Some ([Num 1; Num 6], h')
    ∧ calculateCnpjVerifier (Num <$> [1; 1; 4; 4; 4; 7; 7; 7; 0; 0; 0; 1]) = Num 6
    ∧ h' !! 2%nat = Some (Num <$> [6; 5; 4; 3; 2; 9; 8; 7; 6; 5; 4; 3; 2])
    ∧ h' !! 3%nat = Some (Num <$> [5; 4; 3; 2; 9; 8; 7; 6; 5; 4; 3; 2]).
Proof. eexists. repeat split; vm_compute; reflexivity. Qed.

(** C9. The verifier digit depends on the digits and the kind alone. A call
    on an array holding [ds] returns the value of the function at [ds] in
    every store; it builds its weight table in a new array and leaves all
    arrays of the store unchanged, so the table a 13-digit CNPJ call extends
    is seen by no other call, and the same call made after any sequence of
    other calls returns the same digit. *)
Theorem verifier_deterministic (kind : DocumentKind) (ds : list number) :
  (∀ (h1 h2 : gmap Store.loc (list number)) (p1 p2 : Store.loc),
      h1 !! p1 = Some ds → h2 !! p2 = Some ds →
      Store.computeVerifier kind p1 h1
      = Some (computeVerifier kind ds, <[fresh (dom h1) := weightsOf kind ds]> h1)
      ∧ Store.computeVerifier kind p2 h2
        = Some (computeVerifier kind ds, <[fresh (dom h2) := weightsOf kind ds]> h2)
      ∧ h1 !! fresh (dom h1) = None
      ∧ h2 !! fresh (dom h2) = None)
  ∧ (∀ (h : gmap Store.loc (list number)) (p : Store.loc)
       (calls : list (DocumentKind * Store.loc)),
      h !! p = Some ds →
      (∀ c, c ∈ calls → is_Some (h !! c.2)) →
      ∃ rs h' h'',
        Store.runCalls calls h = Some (rs, h')
        ∧ h ⊆ h'
        ∧ Store.computeVerifier kind p h' = Some (computeVerifier kind ds, h'')
        ∧ Store.computeVerifier kind p h
          = Some (computeVerifier kind ds, <[fresh (dom h) := weightsOf kind ds]> h)).
Proof.
  split.
  - intros h1 h2 p1 p2 H1 H2. repeat apply conj.
    + now apply computeVerifier_run.
    + now apply computeVerifier_run.
    + apply fresh_lookup.
    + apply fresh_lookup.
  - intros h p calls Hp Hc.
    destruct (runCalls_frame calls h Hc) as (rs & h' & Hr & Hsub).
    assert (Hp' : h' !! p = Some ds) by (eapply lookup_weaken; eassumption).
    exists rs, h', (<[fresh (dom h') := weightsOf kind ds]> h').
    repeat apply conj.
    + exact Hr.
    + exact Hsub.
    + now apply computeVerifier_run.
    + now apply computeVerifier_run.
Qed.

Lemma verifier_deterministic_witness :
  (Store.computeVerifier CNPJ 0%nat
     {[ 0%nat := Num <$> [1; 1; 4; 4; 4; 7; 7; 7; 0; 0; 0; 1; 6] ]}
   = Some (Num 1,
           <[fresh (dom ({[ 0%nat := Num <$> [1; 1; 4; 4; 4; 7; 7; 7; 0; 0; 0; 1; 6] ]}
                           : gmap Store.loc (list number)))
               := weightsOf CNPJ (Num <$> [1; 1; 4; 4; 4; 7; 7; 7; 0; 0; 0; 1; 6])]>
             {[ 0%nat := Num <$> [1; 1; 4; 4; 4; 7; 7; 7; 0; 0; 0; 1; 6] ]}))
  ∧ ∃ rs h' h'',
      Store.runCalls [(CNPJ, 0%nat); (CPF, 0%nat); (CNPJ, 0%nat)]
        {[ 0%nat := Num <$> [1; 1; 4; 4; 4; 7; 7; 7; 0; 0; 0; 1; 6] ]} = Some (rs, h')
      ∧ Store.computeVerifier CNPJ 0%nat h' = Some (Num 1, h'').
Proof.
  pose (ds := Num <$> [1; 1; 4; 4; 4; 7; 7; 7; 0; 0; 0; 1; 6]).
  pose (h := ({[ 0%nat := ds ]} : gmap Store.loc (list number))).
  assert (Hp : h !! 0%nat = Some ds) by reflexivity.
  split.
  - exact (proj1 (proj1 (verifier_deterministic CNPJ ds) h h 0%nat 0%nat Hp Hp)).
  - destruct (proj2 (verifier_deterministic CNPJ ds) h 0%nat
                [(CNPJ, 0%nat); (CPF, 0%nat); (CNPJ, 0%nat)] Hp)
      as (rs & h' & h'' & Hr & _ & Hv & _).
    + intros c Hc. exists ds. apply list_elem_of_In in Hc. cbn in Hc.
      destruct Hc as [<-|[<-|[<-|[]]]]; reflexivity.
    + exists rs, h', h''. split; [exact Hr|exact Hv].
Defined.

(** ** More on the verifiers *)

Lemma times10_mod11 (sum : Z) :
  (if (sum * 10) mod 11 =? 10 then 0 else (sum * 10) mod 11) = complement11 sum.
Proof.
  unfold complement11. cbv zeta.
  rewrite Z.mul_mod by lia.
  pose proof (Z.mod_pos_bound sum 11 ltac:(lia)) as Hr.
  generalize dependent (sum mod 11). intros r Hr.
  assert (Hc : r = 0 ∨ r = 1 ∨ r = 2 ∨ r = 3 ∨ r = 4 ∨ r = 5 ∨ r = 6 ∨ r = 7
               ∨ r = 8 ∨ r = 9 ∨ r = 10) by lia.
  repeat (destruct Hc as [->|Hc]; [reflexivity|]). subst r. reflexivity.
Qed.

Lemma calculateCpfVerifier_complement (d : list Z) :
  Forall isDigit d →
  calculateCpfVerifier (Num <$> d)
  = Num (complement11 (Rule.weightedSum (Rule.cpfWeight (length d)) d)).
Proof.
  intros Hd. rewrite (calculateCpfVerifier_rule d Hd). f_equal.
  unfold Rule.cpfRule. cbv zeta. apply times10_mod11.
Qed.




Lemma step_NaN (weights : list number) (acc : number) (i : nat) :
  step weights acc NaN i = NaN.
Proof. unfold step. destruct acc; reflexivity. Qed.

Lemma reduceFrom_has_NaN (weights digits : list number) :
  NaN ∈ digits → ∀ i acc, reduceFrom (step weights) i digits acc = NaN.
Proof.
  intros Hin. apply list_elem_of_split in Hin as (l1 & l2 & ->).
  intros i acc. rewrite reduceFrom_app. cbn [reduceFrom].
  rewrite step_NaN. apply reduceFrom_NaN.
Qed.

(** X2. An element that is not a number makes both verifiers [NaN]. *)
Theorem verifier_of_NaN (digits : list number) :
  NaN ∈ digits →
  calculateCpfVerifier digits = NaN ∧ calculateCnpjVerifier digits = NaN.
Proof.
  intros Hin. unfold calculateCpfVerifier, calculateCnpjVerifier, reduce.
  change (λ (acc digit : number) (i : nat), add acc (mul digit (toNumber (?w !! i))))
    with (step w).
  rewrite !reduceFrom_has_NaN by exact Hin. split; reflexivity.
Qed.

Lemma verifier_of_NaN_witness :
  calculateCpfVerifier [Num 1; NaN; Num 3] = NaN
  ∧ calculateCnpjVerifier [Num 1; NaN; Num 3] = NaN.
Proof.
  apply (verifier_of_NaN [Num 1; NaN; Num 3]).
  apply list_elem_of_In. right. left. reflexivity.
Defined.

Lemma cnpjWeights_lookup_le (d : list Z) (j : nat) :
  (length d ≤ 13)%nat → (j < length d)%nat →
  cnpjWeights (Num <$> d) !! j = Some (Num (Rule.cnpjWeight (length d) j)).
Proof.
  intros HL Hj. rewrite cnpjWeights_aligned, length_fmap, list_lookup_fmap.
  unfold Rule.cnpjWeight.
  destruct (Rule.cnpjAligned (length d) !! j) as [w|] eqn:E; [reflexivity|].
  apply lookup_ge_None in E. rewrite length_cnpjAligned in E.
  destruct (Nat.eqb_spec (length d) 13); lia.
Qed.

Lemma calculateCnpjVerifier_short (d : list Z) :
  (length d ≤ 13)%nat → Forall isDigit d →
  calculateCnpjVerifier (Num <$> d) = Num (Rule.cnpjRule d).
Proof.
  intros HL Hd. unfold calculateCnpjVerifier, reduce, Rule.cnpjRule, Rule.weightedSum.
  change (λ (acc digit : number) (i : nat), add acc (mul digit (toNumber (?w !! i))))
    with (step w).
  rewrite (reduceFrom_weighted _ (Rule.cnpjWeight (length d))).
  2:{ intros j Hj. apply cnpjWeights_lookup_le; [assumption|lia]. }
  assert (Hs : 0 ≤ Rule.weightedSumFrom (Rule.cnpjWeight (length d)) 0 d).
  { apply weightedSumFrom_nonneg; [assumption|]. intros j _. apply cnpjWeight_nonneg. }
  cbn [rem]. rewrite Z.add_0_l.
  change (11 =? 0) with false. cbv iota.
  rewrite Z.rem_mod_nonneg by lia.
  cbn [lt]. destruct (_ <? 2); reflexivity.
Qed.

Lemma cnpjRule_short (d : list Z) :
  (length d ≤ 12)%nat →
  Rule.cnpjRule d
  = complement11 (Rule.weightedSum (fun i => default 0 (Rule.cnpjTable !! i)) d).
Proof.
  intros HL. unfold Rule.cnpjRule, complement11, Rule.cnpjWeight, Rule.cnpjAligned.
  destruct (Nat.eqb_spec (length d) 13) as [E|_]; [lia|]. reflexivity.
Qed.

Lemma cnpjRule_13 (d : list Z) :
  length d = 13%nat →
  Rule.cnpjRule d
  = complement11 (Rule.weightedSum (fun i => default 0 ((6 :: Rule.cnpjTable) !! i)) d).
Proof.
  intros HL. unfold Rule.cnpjRule, complement11, Rule.cnpjWeight, Rule.cnpjAligned.
  rewrite HL. reflexivity.
Qed.

(** X3. The CNPJ verifier does not check the length of its input. On a digit
    sequence of at most 12 digits it weights position i with entry i of the
    table [5,4,3,2,9,8,7,6,5,4,3,2], read from its first entry; on 13
    digits with entry i of the table with 6 in front; in both cases the
    result is 0 for the remainders 0 and 1 of the sum and 11 minus the
    remainder otherwise. On more than 13 digits it returns NaN. So it
    returns a digit exactly when there are at most 13 digits. *)
Theorem cnpj_verifier_digit_iff (d : list Z) :
  Forall isDigit d →
  ((length d ≤ 12)%nat →
     calculateCnpjVerifier (Num <$> d)
     = Num (complement11
              (Rule.weightedSum (fun i => default 0 (Rule.cnpjTable !! i)) d)))
  ∧ (length d = 13%nat →
     calculateCnpjVerifier (Num <$> d)
     = Num (complement11
              (Rule.weightedSum (fun i => default 0 ((6 :: Rule.cnpjTable) !! i)) d)))
  ∧ ((13 < length d)%nat → calculateCnpjVerifier (Num <$> d) = NaN)
  ∧ ((length d ≤ 13)%nat ↔ ∃ v, calculateCnpjVerifier (Num <$> d) = Num v ∧ 0 ≤ v ≤ 9).
Proof.
  intros Hd. repeat apply conj.
  - intros HL. rewrite calculateCnpjVerifier_short by (assumption || lia).
    f_equal. now apply cnpjRule_short.
  - intros HL. rewrite calculateCnpjVerifier_short by (assumption || lia).
    f_equal. now apply cnpjRule_13.
  - intros HL. apply calculateCnpjVerifier_long. now rewrite length_fmap.
  - intros HL. exists (Rule.cnpjRule d). split.
    + now apply calculateCnpjVerifier_short.
    + apply cnpjRule_range.
  - intros (v & Hv & _). destruct (Nat.le_gt_cases (length d) 13) as [H|H]; [exact H|].
    rewrite calculateCnpjVerifier_long in Hv by (rewrite length_fmap; lia).
    discriminate Hv.
Qed.

Lemma cnpj_verifier_digit_iff_witness :
  calculateCnpjVerifier (Num <$> [4; 2; 7])
  = Num (complement11
           (Rule.weightedSum (fun i => default 0 (Rule.cnpjTable !! i)) [4; 2; 7]))
  ∧ calculateCnpjVerifier (Num <$> [1; 1; 4; 4; 4; 7; 7; 7; 0; 0; 0; 1; 6])
    = Num (complement11
             (Rule.weightedSum (fun i => default 0 ((6 :: Rule.cnpjTable) !! i))
                [1; 1; 4; 4; 4; 7; 7; 7; 0; 0; 0; 1; 6]))
  ∧ calculateCnpjVerifier (Num <$> [1; 1; 4; 4; 4; 7; 7; 7; 0; 0; 0; 1; 6; 1]) = NaN.
Proof.
  repeat apply conj.
  - refine (proj1 (cnpj_verifier_digit_iff [4; 2; 7] _) _).
    + repeat (apply Forall_cons; split; [unfold isDigit; lia|]). apply Forall_nil_2.
    + cbn. lia.
  - refine (proj1 (proj2 (cnpj_verifier_digit_iff
                            [1; 1; 4; 4; 4; 7; 7; 7; 0; 0; 0; 1; 6] _)) _).
    + repeat (apply Forall_cons; split; [unfold isDigit; lia|]). apply Forall_nil_2.
    + reflexivity.
  - refine (proj1 (proj2 (proj2 (cnpj_verifier_digit_iff
                            [1; 1; 4; 4; 4; 7; 7; 7; 0; 0; 0; 1; 6; 1] _))) _).
    + repeat (apply Forall_cons; split; [unfold isDigit; lia|]). apply Forall_nil_2.
    + cbn. lia.
Defined.

(** *** One digit changed *)

Lemma weightedSumFrom_app (weight : nat → Z) (l1 l2 : list Z) :
  ∀ i, Rule.weightedSumFrom weight i (l1 ++ l2)
       = Rule.weightedSumFrom weight i l1
         + Rule.weightedSumFrom weight (i + length l1) l2.
Proof.
  induction l1 as [|x l1 IH]; intros i; cbn [app Rule.weightedSumFrom length].
  - rewrite Nat.add_0_r. lia.
  - rewrite IH. replace (S i + length l1)%nat with (i + S (length l1))%nat by lia. lia.
Qed.

(** Two sums that differ by one digit under a weight between 2 and 10 have
    different remainders modulo 11. *)
Lemma one_digit_remainders (weight : nat → Z) (l1 l2 : list Z) (a b : Z) :
  2 ≤ weight (length l1) ≤ 10 → isDigit a → isDigit b → a ≠ b →
  Rule.weightedSum weight (l1 ++ a :: l2) mod 11
  ≠ Rule.weightedSum weight (l1 ++ b :: l2) mod 11.
Proof.
  unfold Rule.weightedSum, isDigit. intros Hw Ha Hb Hab.
  rewrite !weightedSumFrom_app. cbn [Rule.weightedSumFrom Nat.add].
  set (p := Rule.weightedSumFrom weight 0 l1).
  set (q := Rule.weightedSumFrom weight (S (length l1)) l2).
  set (w := weight (length l1)) in *.
  intros Heq.
  pose proof (Z.div_mod (p + (a * w + q)) 11 ltac:(lia)) as E1.
  pose proof (Z.div_mod (p + (b * w + q)) 11 ltac:(lia)) as E2.
  rewrite Heq in E1.
  set (k1 := (p + (a * w + q)) / 11) in *.
  set (k2 := (p + (b * w + q)) / 11) in *.
  assert (E : (a - b) * w = 11 * (k1 - k2)) by lia.
  assert (Hc : w = 2 ∨ w = 3 ∨ w = 4 ∨ w = 5 ∨ w = 6 ∨ w = 7 ∨ w = 8 ∨ w = 9 ∨ w = 10)
    by lia.
  clearbody w k1 k2.
  repeat (destruct Hc as [->|Hc]; [lia|]). subst w. lia.
Qed.

Lemma complement11_collision (s1 s2 : Z) :
  s1 mod 11 ≠ s2 mod 11 → complement11 s1 = complement11 s2 → complement11 s1 = 0.
Proof.
  unfold complement11. cbv zeta.
  pose proof (Z.mod_pos_bound s1 11 ltac:(lia)).
  pose proof (Z.mod_pos_bound s2 11 ltac:(lia)).
  destruct (Z.ltb_spec (s1 mod 11) 2), (Z.ltb_spec (s2 mod 11) 2); lia.
Qed.

Lemma cpfWeight_9_range (j : nat) : (j < 9)%nat → 2 ≤ Rule.cpfWeight 9 j ≤ 10.
Proof. unfold Rule.cpfWeight. lia. Qed.

Lemma cnpjWeight_12_range (j : nat) : (j < 12)%nat → 2 ≤ Rule.cnpjWeight 12 j ≤ 10.
Proof.
  intros Hj. do 12 (destruct j as [|j]; [vm_compute; split; discriminate|]). lia.
Qed.

(** X4. Replacing one of the nine base digits by another changes the first CPF
    verifier, unless both verifiers are 0 (the remainders 0 and 1 of the sum
    share that digit). *)
Theorem cpf_one_digit_changed (l1 l2 : list Z) (a b : Z) :
  length (l1 ++ a :: l2) = 9%nat →
  Forall isDigit (l1 ++ a :: l2) → isDigit b → a ≠ b →
  calculateCpfVerifier (Num <$> (l1 ++ a :: l2))
  = calculateCpfVerifier (Num <$> (l1 ++ b :: l2)) →
  calculateCpfVerifier (Num <$> (l1 ++ a :: l2)) = Num 0.
Proof.
  intros HL Hd Hb Hab.
  assert (Hd' : Forall isDigit (l1 ++ b :: l2)).
  { apply Forall_app in Hd as [H1 H2]. apply Forall_cons in H2 as [_ H2].
    apply Forall_app. split; [exact H1|]. apply Forall_cons. split; assumption. }
  assert (Ha : isDigit a).
  { apply Forall_app in Hd as [_ H2]. now apply Forall_cons in H2 as [H2 _]. }
  assert (HL' : length (l1 ++ b :: l2) = 9%nat).
  { rewrite length_app in *. exact HL. }
  rewrite !calculateCpfVerifier_complement by assumption. rewrite HL, HL'.
  intros Heq. injection Heq as Heq. f_equal.
  apply (complement11_collision _ _ (one_digit_remainders _ l1 l2 a b
           (cpfWeight_9_range (length l1) ltac:(rewrite length_app in HL; cbn in HL; lia))
           Ha Hb Hab) Heq).
Qed.

Lemma cpf_one_digit_changed_witness :
  calculateCpfVerifier (Num <$> ([0; 0; 0; 0] ++ 0 :: [0; 0; 0; 0])) = Num 0.
Proof.
  apply (cpf_one_digit_changed [0; 0; 0; 0] [0; 0; 0; 0] 0 2).
  - reflexivity.
  - repeat constructor; unfold isDigit; lia.
  - unfold isDigit. lia.
  - discriminate.
  - reflexivity.
Defined.

(** X5. The same for the twelve base digits of a CNPJ and its first verifier. *)
Theorem cnpj_one_digit_changed (l1 l2 : list Z) (a b : Z) :
  length (l1 ++ a :: l2) = 12%nat →
  Forall isDigit (l1 ++ a :: l2) → isDigit b → a ≠ b →
  calculateCnpjVerifier (Num <$> (l1 ++ a :: l2))
  = calculateCnpjVerifier (Num <$> (l1 ++ b :: l2)) →
  calculateCnpjVerifier (Num <$> (l1 ++ a :: l2)) = Num 0.
Proof.
  intros HL Hd Hb Hab.
  assert (Hd' : Forall isDigit (l1 ++ b :: l2)).
  { apply Forall_app in Hd as [H1 H2]. apply Forall_cons in H2 as [_ H2].
    apply Forall_app. split; [exact H1|]. apply Forall_cons. split; assumption. }
  assert (Ha : isDigit a).
  { apply Forall_app in Hd as [_ H2]. now apply Forall_cons in H2 as [H2 _]. }
  assert (HL' : length (l1 ++ b :: l2) = 12%nat).
  { rewrite length_app in *. exact HL. }
  rewrite !calculateCnpjVerifier_rule by (assumption || (left; assumption)).
  unfold Rule.cnpjRule. cbv zeta. rewrite HL, HL'.
  fold (complement11 (Rule.weightedSum (Rule.cnpjWeight 12) (l1 ++ a :: l2))).
  fold (complement11 (Rule.weightedSum (Rule.cnpjWeight 12) (l1 ++ b :: l2))).
  intros Heq. injection Heq as Heq. f_equal.
  apply (complement11_collision _ _ (one_digit_remainders _ l1 l2 a b
           (cnpjWeight_12_range (length l1) ltac:(rewrite length_app in HL; cbn in HL; lia))
           Ha Hb Hab) Heq).
Qed.

Lemma cnpj_one_digit_changed_witness :
  calculateCnpjVerifier (Num <$> ([0] ++ 0 :: [0; 0; 0; 0; 0; 0; 0; 0; 0; 0])) = Num 0.
Proof.
  apply (cnpj_one_digit_changed [0] [0; 0; 0; 0; 0; 0; 0; 0; 0; 0] 0 3).
  - reflexivity.
  - repeat constructor; unfold isDigit; lia.
  - unfold isDigit. lia.
  - discriminate.
  - reflexivity.
Defined.

(** ** More on the generated documents *)

(** X6. Nine equal base digits give a CPF of eleven equal digits: both verifiers
    repeat the digit, and the generator does not leave these numbers out. *)
Theorem cpf_repeated_digit (k : Z) :
  isDigit k →
  calculateCpfVerifier (Num <$> replicate 9 k) = Num k
  ∧ calculateCpfVerifier (Num <$> replicate 10 k) = Num k
  ∧ generateCpf (Num <$> replicate 9 k)
    = string_of_list_ascii (cpfLayout (replicate 11 (digitChar k))).
Proof.
  intros Hk. apply isDigit_cases in Hk.
  repeat (destruct Hk as [->|Hk]; [repeat split; vm_compute; reflexivity|]).
  subst k. repeat split; vm_compute; reflexivity.
Qed.

Lemma cpf_repeated_digit_witness :
  generateCpf (Num <$> replicate 9 7) = "777.777.777-77"%string.
Proof.
  refine (proj2 (proj2 (cpf_repeated_digit 7 _))). unfold isDigit. lia.
Defined.

Lemma stripped_cpf (b : list Z) :
  Forall isDigit b → length b = 9%nat →
  digitsOf (stripPunctuation (generateCpf (Num <$> b))) = cpfDigits b.
Proof.
  intros Hb HL.
  assert (Hds : Forall isDigit (cpfDigits b)) by now apply cpfDigits_digits.
  assert (Hlen : length (digitChar <$> cpfDigits b) = 11%nat).
  { rewrite length_fmap. unfold cpfDigits. cbv zeta. rewrite length_app, HL. reflexivity. }
  rewrite generateCpf_layout by assumption.
  destruct (cpfLayout_shape _ Hlen (digitChars_all _ Hds)) as (_ & _ & ->).
  now apply digitsOf_digits.
Qed.

Lemma stripped_cnpj (b : list Z) :
  Forall isDigit b → length b = 12%nat →
  digitsOf (stripPunctuation (generateCnpj (Num <$> b))) = cnpjDigits b.
Proof.
  intros Hb HL.
  assert (Hds : Forall isDigit (cnpjDigits b)) by now apply cnpjDigits_digits.
  assert (Hlen : length (digitChar <$> cnpjDigits b) = 14%nat).
  { rewrite length_fmap. unfold cnpjDigits. cbv zeta. rewrite length_app, HL. reflexivity. }
  rewrite generateCnpj_layout by assumption.
  destruct (cnpjLayout_shape _ Hlen (digitChars_all _ Hds)) as (_ & _ & ->).
  now apply digitsOf_digits.
Qed.

(** X7. Different base digits give different documents: the formatted CPF and
    the formatted CNPJ determine the base digits they were generated from. *)
Theorem documents_determine_base_digits (b b' : list Z) :
  Forall isDigit b → Forall isDigit b' →
  (length b = 9%nat → length b' = 9%nat →
   generateCpf (Num <$> b) = generateCpf (Num <$> b') → b = b')
  ∧ (length b = 12%nat → length b' = 12%nat →
     generateCnpj (Num <$> b) = generateCnpj (Num <$> b') → b = b').
Proof.
  intros Hb Hb'. split; intros HL HL' Heq.
  - apply (f_equal (fun s => take 9 (digitsOf (stripPunctuation s)))) in Heq.
    rewrite !stripped_cpf in Heq by assumption.
    unfold cpfDigits in Heq. cbv zeta in Heq.
    rewrite !take_app_length' in Heq by (symmetry; assumption). exact Heq.
  - apply (f_equal (fun s => take 12 (digitsOf (stripPunctuation s)))) in Heq.
    rewrite !stripped_cnpj in Heq by assumption.
    unfold cnpjDigits in Heq. cbv zeta in Heq.
    rewrite !take_app_length' in Heq by (symmetry; assumption). exact Heq.
Qed.

Lemma documents_determine_base_digits_witness :
  [5; 2; 9; 9; 8; 2; 2; 4; 7] = [5; 2; 9; 9; 8; 2; 2; 4; 7].
Proof.
  refine (proj1 (documents_determine_base_digits
                   [5; 2; 9; 9; 8; 2; 2; 4; 7] [5; 2; 9; 9; 8; 2; 2; 4; 7] _ _) _ _ _).
  - repeat constructor; unfold isDigit; lia.
  - repeat constructor; unfold isDigit; lia.
  - reflexivity.
  - reflexivity.
  - reflexivity.
Defined.

(** X8. The formatted digits read back: [join] on digits writes one character
    per digit, and reading the characters gives the digits again. *)
Theorem join_read_back (d : list Z) :
  Forall isDigit d →
  String.length (join (Num <$> d)) = length d
  ∧ allDigits (join (Num <$> d)) = true
  ∧ digitsOf (join (Num <$> d)) = d.
Proof.
  intros Hd. rewrite join_digits by exact Hd. repeat apply conj.
  - now rewrite length_string_of_list_ascii, length_fmap.
  - unfold allDigits. rewrite list_ascii_of_string_of_list_ascii. now apply digitChars_all.
  - now apply digitsOf_digits.
Qed.

Lemma join_read_back_witness :
  String.length (join (Num <$> [3; 1; 4; 1; 5])) = 5%nat
  ∧ allDigits (join (Num <$> [3; 1; 4; 1; 5])) = true
  ∧ digitsOf (join (Num <$> [3; 1; 4; 1; 5])) = [3; 1; 4; 1; 5].
Proof.
  apply (join_read_back [3; 1; 4; 1; 5]).
  repeat constructor; unfold isDigit; lia.
Defined.

Lemma randomDigits_draws (draw : nat → Z) (n : nat) :
  randomDigits draw n = Num <$> (draw <$> seq 0 n).
Proof. unfold randomDigits, arrayFrom. rewrite <- list_fmap_compose. reflexivity. Qed.

Lemma draws_digits (draw : nat → Z) (n : nat) :
  (∀ i, isDigit (draw i)) → Forall isDigit (draw <$> seq 0 n).
Proof. intros Hd. apply Forall_fmap, Forall_forall. intros i _. apply Hd. Qed.

(** X9. Both handlers call the verifiers as these expect. The CPF that
    [handleGenerateCpf] stores is the formatted join of the nine digits
    drawn, in the order drawn, of the CPF verifier of these 9 digits and of
    the CPF verifier of the 10 digits so far; the CNPJ that
    [handleGenerateCnpj] stores is made likewise from 12 digits and the CNPJ
    verifiers of 12 and of 13 digits. All four verifier results are digits,
    never NaN. *)
Theorem handlers_stage_their_calls (draw : nat → Z) (st : AppState) :
  (∀ i, isDigit (draw i)) →
  (∃ v1 v2,
      calculateCpfVerifier (Num <$> (draw <$> seq 0 9)) = Num v1 ∧ isDigit v1
      ∧ calculateCpfVerifier (Num <$> ((draw <$> seq 0 9) ++ [v1])) = Num v2 ∧ isDigit v2
      ∧ cpf (handleGenerateCpf draw st)
        = replace cpfPattern cpfTemplate (join (Num <$> ((draw <$> seq 0 9) ++ [v1; v2]))))
  ∧ (∃ v1 v2,
        calculateCnpjVerifier (Num <$> (draw <$> seq 0 12)) = Num v1 ∧ isDigit v1
        ∧ calculateCnpjVerifier (Num <$> ((draw <$> seq 0 12) ++ [v1])) = Num v2
        ∧ isDigit v2
        ∧ cnpj (handleGenerateCnpj draw st)
          = replace cnpjPattern cnpjTemplate
              (join (Num <$> ((draw <$> seq 0 12) ++ [v1; v2])))).
Proof.
  intros Hd. split.
  - set (b := draw <$> seq 0 9).
    assert (Hb : Forall isDigit b) by now apply draws_digits.
    assert (Hb1 : Forall isDigit (b ++ [Rule.cpfRule b])).
    { apply Forall_app. split; [exact Hb|]. apply Forall_singleton, isDigit_cpfRule. }
    exists (Rule.cpfRule b), (Rule.cpfRule (b ++ [Rule.cpfRule b])).
    refine (conj _ (conj _ (conj _ (conj _ _)))).
    + now apply calculateCpfVerifier_rule.
    + apply isDigit_cpfRule.
    + now apply calculateCpfVerifier_rule.
    + apply isDigit_cpfRule.
    + cbn [handleGenerateCpf cpf]. rewrite randomDigits_draws. fold b.
      unfold generateCpf. cbv zeta.
      rewrite (calculateCpfVerifier_rule b Hb).
      change ((Num <$> b) ++ [Num (Rule.cpfRule b)])
        with ((Num <$> b) ++ (Num <$> [Rule.cpfRule b])).
      rewrite <- fmap_app, (calculateCpfVerifier_rule _ Hb1).
      now rewrite fmap_app.
  - set (b := draw <$> seq 0 12).
    assert (Hb : Forall isDigit b) by now apply draws_digits.
    assert (HL : length b = 12%nat) by (subst b; now rewrite length_fmap, length_seq).
    assert (Hb1 : Forall isDigit (b ++ [Rule.cnpjRule b])).
    { apply Forall_app. split; [exact Hb|]. apply Forall_singleton, isDigit_cnpjRule. }
    assert (HL1 : length (b ++ [Rule.cnpjRule b]) = 13%nat)
      by (rewrite length_app, HL; reflexivity).
    exists (Rule.cnpjRule b), (Rule.cnpjRule (b ++ [Rule.cnpjRule b])).
    refine (conj _ (conj _ (conj _ (conj _ _)))).
    + apply calculateCnpjVerifier_rule; [left|]; assumption.
    + apply isDigit_cnpjRule.
    + apply calculateCnpjVerifier_rule; [right|]; assumption.
    + apply isDigit_cnpjRule.
    + cbn [handleGenerateCnpj cnpj]. rewrite randomDigits_draws. fold b.
      unfold generateCnpj. cbv zeta.
      rewrite (calculateCnpjVerifier_rule b (or_introl HL) Hb).
      change ((Num <$> b) ++ [Num (Rule.cnpjRule b)])
        with ((Num <$> b) ++ (Num <$> [Rule.cnpjRule b])).
      rewrite <- fmap_app, (calculateCnpjVerifier_rule _ (or_intror HL1) Hb1).
      now rewrite fmap_app.
Qed.

Lemma handlers_stage_their_calls_witness :
  ∃ v1 v2,
    calculateCpfVerifier (Num <$> (exampleDraw <$> seq 0 9)) = Num v1 ∧ isDigit v1
    ∧ calculateCpfVerifier (Num <$> ((exampleDraw <$> seq 0 9) ++ [v1])) = Num v2
    ∧ isDigit v2
    ∧ cpf (handleGenerateCpf exampleDraw initialState)
      = replace cpfPattern cpfTemplate
          (join (Num <$> ((exampleDraw <$> seq 0 9) ++ [v1; v2]))).
Proof.
  refine (proj1 (handlers_stage_their_calls exampleDraw initialState _)).
  intros i. unfold isDigit, exampleDraw.
  pose proof (Nat.mod_upper_bound (7 * i + 3) 10). lia.
Defined.

(** ** More on the formatting *)

Lemma takeDigits_split (k : nat) :
  ∀ s g r, takeDigits k s = Some (g, r) →
           s = String.append g r ∧ String.length g = k.
Proof.
  induction k as [|k IH]; intros s g r H; cbn [takeDigits] in H.
  - injection H as <- <-. split; reflexivity.
  - destruct s as [|c s]; [discriminate H|].
    destruct (isDigitChar c); [|discriminate H].
    destruct (takeDigits k s) as [[g' r']|] eqn:E; [|discriminate H].
    injection H as <- <-. destruct (IH _ _ _ E) as [-> <-]. split; reflexivity.
Qed.


Lemma length_append (s1 s2 : string) :
  String.length (String.append s1 s2) = (String.length s1 + String.length s2)%nat.
Proof.
  induction s1 as [|c s1 IH]; simpl; [reflexivity|].
  f_equal. exact IH.
Qed.


(** A match of the CPF pattern: four groups of 3, 3, 3 and 2 characters
    followed by the rest. *)
Lemma matchGroups_cpf (s rest : string) (caps : list string) :
  matchGroups cpfPattern s = Some (caps, rest) →
  ∃ g1 g2 g3 g4,
    caps = [g1; g2; g3; g4]
    ∧ s = String.append g1 (String.append g2 (String.append g3 (String.append g4 rest)))
    ∧ String.length g1 = 3%nat ∧ String.length g2 = 3%nat
    ∧ String.length g3 = 3%nat ∧ String.length g4 = 2%nat.
Proof.
  unfold cpfPattern. cbn [matchGroups]. intros H.
  destruct (takeDigits 3 s) as [[g1 r1]|] eqn:E1; [|discriminate H].
  destruct (takeDigits 3 r1) as [[g2 r2]|] eqn:E2; [|discriminate H].
  destruct (takeDigits 3 r2) as [[g3 r3]|] eqn:E3; [|discriminate H].
  destruct (takeDigits 2 r3) as [[g4 r4]|] eqn:E4; [|discriminate H].
  injection H as <- <-.
  apply takeDigits_split in E1 as [-> H1]. apply takeDigits_split in E2 as [-> H2].
  apply takeDigits_split in E3 as [-> H3]. apply takeDigits_split in E4 as [-> H4].
  exists g1, g2, g3, g4. repeat split; assumption.
Qed.

Lemma matchGroups_cnpj (s rest : string) (caps : list string) :
  matchGroups cnpjPattern s = Some (caps, rest) →
  ∃ g1 g2 g3 g4 g5,
    caps = [g1; g2; g3; g4; g5]
    ∧ s = String.append g1 (String.append g2 (String.append g3
            (String.append g4 (String.append g5 rest))))
    ∧ String.length g1 = 2%nat ∧ String.length g2 = 3%nat
    ∧ String.length g3 = 3%nat ∧ String.length g4 = 4%nat
    ∧ String.length g5 = 2%nat.
Proof.
  unfold cnpjPattern. cbn [matchGroups]. intros H.
  destruct (takeDigits 2 s) as [[g1 r1]|] eqn:E1; [|discriminate H].
  destruct (takeDigits 3 r1) as [[g2 r2]|] eqn:E2; [|discriminate H].
  destruct (takeDigits 3 r2) as [[g3 r3]|] eqn:E3; [|discriminate H].
  destruct (takeDigits 4 r3) as [[g4 r4]|] eqn:E4; [|discriminate H].
  destruct (takeDigits 2 r4) as [[g5 r5]|] eqn:E5; [|discriminate H].
  injection H as <- <-.
  apply takeDigits_split in E1 as [-> H1]. apply takeDigits_split in E2 as [-> H2].
  apply takeDigits_split in E3 as [-> H3]. apply takeDigits_split in E4 as [-> H4].
  apply takeDigits_split in E5 as [-> H5].
  exists g1, g2, g3, g4, g5. repeat split; assumption.
Qed.







(** X11. A string too short to hold the digits of the pattern is returned as it
    is: fewer than 11 characters for the CPF pattern, fewer than 14 for the
    CNPJ pattern. *)
Theorem replace_short_string (s : string) :
  ((String.length s < 11)%nat → replace cpfPattern cpfTemplate s = s)
  ∧ ((String.length s < 14)%nat → replace cnpjPattern cnpjTemplate s = s).
Proof.
  split.
  - induction s as [|c s IH]; intros HL; [reflexivity|].
    cbn [replace].
    destruct (matchGroups cpfPattern (String c s)) as [[caps rest]|] eqn:E.
    + apply matchGroups_cpf in E as (g1 & g2 & g3 & g4 & _ & Hs & H1 & H2 & H3 & H4).
      rewrite Hs in HL. rewrite !length_append in HL. lia.
    + f_equal. apply IH. cbn [String.length] in HL. lia.
  - induction s as [|c s IH]; intros HL; [reflexivity|].
    cbn [replace].
    destruct (matchGroups cnpjPattern (String c s)) as [[caps rest]|] eqn:E.
    + apply matchGroups_cnpj in E
        as (g1 & g2 & g3 & g4 & g5 & _ & Hs & H1 & H2 & H3 & H4 & H5).
      rewrite Hs in HL. rewrite !length_append in HL. lia.
    + f_equal. apply IH. cbn [String.length] in HL. lia.
Qed.

Lemma replace_short_string_witness :
  replace cpfPattern cpfTemplate "1234567890" = "1234567890"%string
  ∧ replace cnpjPattern cnpjTemplate "1234567890123" = "1234567890123"%string.
Proof.
  split.
  - apply (proj1 (replace_short_string "1234567890")). cbn. lia.
  - apply (proj2 (replace_short_string "1234567890123")). cbn. lia.
Defined.

(** ** The component under any sequence of events *)

Section Component.

Implicit Types (w : UI.World) (e : UI.event) (events : list UI.event).

(** An invariant of every step is an invariant of every run. *)
Lemma run_invariant (P : UI.World → Prop) (Q : UI.event → Prop) :
  (∀ e w, Q e → P w → P (UI.step e w)) →
  ∀ events w, Forall Q events → P w → P (UI.run events w).
Proof.
  intros Hstep. induction events as [|e events IH]; intros w HQ HP; [exact HP|].
  apply Forall_cons in HQ as [He HQ]. cbn [UI.run].
  apply IH; [exact HQ|]. now apply Hstep.
Qed.

Lemma Forall_True {A} (l : list A) : Forall (fun _ => True) l.
Proof. apply Forall_forall. intros; exact I. Qed.

Lemma filter_appended (l : list UI.element) (x : UI.element) :
  Forall (fun y => (UI.node y < UI.node x)%nat) l →
  filter (fun y => UI.node y ≠ UI.node x) (l ++ [x]) = l.
Proof.
  induction 1 as [|y l Hy Hl IH]; cbn [app].
  - rewrite filter_cons_False by (intros H; now apply H). reflexivity.
  - rewrite filter_cons_True by lia. now rewrite IH.
Qed.

Lemma copyToClipboard_body (text : string) (t : UI.copyType) (r : UI.execResult) w :
  UI.wellFormed w →
  UI.body (UI.copyToClipboard text t r w) = UI.body w
  ∧ UI.wellFormed (UI.copyToClipboard text t r w).
Proof.
  unfold UI.wellFormed. intros Hw. destruct text as [|c text]; [now split|].
  assert (Hb : UI.body (UI.copyToClipboard (String c text) t r w) = UI.body w).
  { destruct r as [ok|], t; cbn; apply (filter_appended (UI.body w)
      {| UI.node := UI.nextNode w; UI.tagName := "textarea";
         UI.value := String c text |}); exact Hw. }
  split; [exact Hb|]. rewrite Hb.
  assert (Hn : UI.nextNode (UI.copyToClipboard (String c text) t r w)
               = S (UI.nextNode w)) by (destruct r as [ok|], t; reflexivity).
  rewrite Hn. eapply Forall_impl; [exact Hw|]. cbn. intros; lia.
Qed.

Lemma step_body e w :
  UI.wellFormed w →
  UI.body (UI.step e w) = UI.body w ∧ UI.wellFormed (UI.step e w).
Proof.
  intros Hw. destruct e as [draw|draw|r|r|]; cbn [UI.step].
  - split; [reflexivity|exact Hw].
  - split; [reflexivity|exact Hw].
  - now apply copyToClipboard_body.
  - now apply copyToClipboard_body.
  - unfold UI.timeout. destruct (UI.pending w); split; first [reflexivity|exact Hw].
Qed.

(** X12. The page is left as it was found: after any sequence of clicks and
    timers, also when [execCommand] throws, [document.body] has the children
    it had before, the textarea of every copy having been removed. *)
Theorem page_left_as_found events w :
  UI.wellFormed w →
  UI.body (UI.run events w) = UI.body w ∧ UI.wellFormed (UI.run events w).
Proof.
  intros Hw.
  apply (run_invariant
           (fun w' => UI.body w' = UI.body w ∧ UI.wellFormed w') (fun _ => True)).
  - intros e w' _ [Hb Hw']. destruct (step_body e w' Hw') as [Hb' Hw''].
    split; [congruence|exact Hw''].
  - apply Forall_True.
  - split; [reflexivity|exact Hw].
Qed.

Lemma page_left_as_found_witness :
  UI.body (UI.run [UI.CopyCpf UI.Threw; UI.CopyCpf (UI.Returned true); UI.Timeout]
                  examplePage)
  = UI.body examplePage.
Proof.
  refine (proj1 (page_left_as_found
                   [UI.CopyCpf UI.Threw; UI.CopyCpf (UI.Returned true); UI.Timeout]
                   examplePage _)).
  unfold UI.wellFormed. cbn. repeat constructor.
Defined.

Lemma step_confirmationsScheduled e w :
  confirmationsScheduled w → confirmationsScheduled (UI.step e w).
Proof.
  unfold confirmationsScheduled. intros Hw.
  destruct e as [draw|draw|r|r|]; cbn [UI.step].
  - intros [] H; cbn in H; [discriminate H|]. apply (Hw UI.TypeCnpj H).
  - intros [] H; cbn in H; [|discriminate H]. apply (Hw UI.TypeCpf H).
  - unfold UI.copyToClipboard. destruct (cpf (UI.state w)); [exact Hw|].
    destruct r as [ok|]; cbn.
    + intros [] H; apply elem_of_app; [right; apply list_elem_of_In; now left|].
      left. apply (Hw UI.TypeCnpj H).
    + exact Hw.
  - unfold UI.copyToClipboard. destruct (cnpj (UI.state w)); [exact Hw|].
    destruct r as [ok|]; cbn.
    + intros [] H; apply elem_of_app; [|right; apply list_elem_of_In; now left].
      left. apply (Hw UI.TypeCpf H).
    + exact Hw.
  - unfold UI.timeout.
    destruct (UI.pending w) as [|t rest] eqn:E.
    { intros t H. rewrite E. now apply Hw. }
    cbn. intros t' H. destruct t, t'; cbn in H; try discriminate H.
    + specialize (Hw UI.TypeCnpj H). apply elem_of_cons in Hw as [Hw|Hw];
        [discriminate Hw|exact Hw].
    + specialize (Hw UI.TypeCpf H). apply elem_of_cons in Hw as [Hw|Hw];
        [discriminate Hw|exact Hw].
Qed.

Lemma mounted_confirmationsScheduled w : UI.mounted w → confirmationsScheduled w.
Proof.
  intros [Hs _] t H. rewrite Hs in H. destruct t; discriminate H.
Qed.

Lemma timeouts_drain w :
  ∀ n, n = length (UI.pending w) →
       UI.pending (UI.run (replicate n UI.Timeout) w) = [].
Proof.
  intros n. revert w. induction n as [|n IH]; intros w Hn.
  - cbn. destruct (UI.pending w); [reflexivity|discriminate Hn].
  - cbn [replicate UI.run UI.step]. apply IH.
    unfold UI.timeout. destruct (UI.pending w) as [|t rest]; [discriminate Hn|].
    cbn in *. lia.
Qed.

(** X13. No confirmation stays for ever. From the mounted component and after
    any sequence of events, a copy flag that is set has its reset among the
    scheduled callbacks; once the callbacks scheduled so far have all run,
    both flags are off and nothing is scheduled. *)
Theorem confirmation_is_withdrawn events w :
  UI.mounted w →
  let w' := UI.run events w in
  (copiedCpf (UI.state w') = true → UI.TypeCpf ∈ UI.pending w')
  ∧ (copiedCnpj (UI.state w') = true → UI.TypeCnpj ∈ UI.pending w')
  ∧ let w'' := UI.run (replicate (length (UI.pending w')) UI.Timeout) w' in
    copiedCpf (UI.state w'') = false
    ∧ copiedCnpj (UI.state w'') = false
    ∧ UI.pending w'' = [].
Proof.
  intros Hm w'.
  assert (Hinv : confirmationsScheduled w').
  { apply (run_invariant confirmationsScheduled (fun _ => True)).
    - intros e w0 _. apply step_confirmationsScheduled.
    - apply Forall_True.
    - now apply mounted_confirmationsScheduled. }
  split; [exact (Hinv UI.TypeCpf)|]. split; [exact (Hinv UI.TypeCnpj)|].
  intros w''.
  assert (Hinv' : confirmationsScheduled w'').
  { apply (run_invariant confirmationsScheduled (fun _ => True)).
    - intros e w0 _. apply step_confirmationsScheduled.
    - apply Forall_True.
    - exact Hinv. }
  assert (Hp : UI.pending w'' = []) by now apply timeouts_drain.
  repeat apply conj; [| |exact Hp].
  - destruct (copiedCpf (UI.state w'')) eqn:E; [|reflexivity].
    specialize (Hinv' UI.TypeCpf E). rewrite Hp in Hinv'. now apply elem_of_nil in Hinv'.
  - destruct (copiedCnpj (UI.state w'')) eqn:E; [|reflexivity].
    specialize (Hinv' UI.TypeCnpj E). rewrite Hp in Hinv'. now apply elem_of_nil in Hinv'.
Qed.

Lemma exampleDraw_digits : ∀ i, 0 ≤ exampleDraw i ≤ 9.
Proof.
  intros i. unfold exampleDraw. pose proof (Nat.mod_upper_bound (7 * i + 3) 10). lia.
Qed.

Lemma confirmation_is_withdrawn_witness :
  let w' := UI.run [UI.GenerateCpf exampleDraw; UI.CopyCpf (UI.Returned true);
                    UI.GenerateCnpj exampleDraw; UI.CopyCnpj (UI.Returned false)]
                   mountedPage in
  let w'' := UI.run (replicate (length (UI.pending w')) UI.Timeout) w' in
  copiedCpf (UI.state w'') = false
  ∧ copiedCnpj (UI.state w'') = false
  ∧ UI.pending w'' = [].
Proof.
  refine (proj2 (proj2 (confirmation_is_withdrawn
            [UI.GenerateCpf exampleDraw; UI.CopyCpf (UI.Returned true);
             UI.GenerateCnpj exampleDraw; UI.CopyCnpj (UI.Returned false)]
            mountedPage _))).
  split; reflexivity.
Defined.

Ltac events_ok :=
  repeat (apply Forall_cons; split; [first [exact exampleDraw_digits | exact I]|]);
  apply Forall_nil_2.

Lemma generateCpf_shape (draw : nat → Z) :
  (∀ i, 0 ≤ draw i ≤ 9) →
  String.length (generateCpf (randomDigits draw 9)) = 14%nat
  ∧ matchesTemplate cpfShape (generateCpf (randomDigits draw 9)) = true.
Proof.
  intros Hd. destruct (randomDigits_digits draw 9 Hd) as (b & -> & Hb & HL).
  rewrite generateCpf_layout by assumption.
  assert (Hds : Forall isDigit (cpfDigits b)) by now apply cpfDigits_digits.
  assert (Hlen : length (digitChar <$> cpfDigits b) = 11%nat).
  { rewrite length_fmap. unfold cpfDigits. cbv zeta. rewrite length_app, HL. reflexivity. }
  destruct (cpfLayout_shape _ Hlen (digitChars_all _ Hds)) as (H1 & H2 & _).
  split; assumption.
Qed.

Lemma generateCnpj_shape (draw : nat → Z) :
  (∀ i, 0 ≤ draw i ≤ 9) →
  String.length (generateCnpj (randomDigits draw 12)) = 18%nat
  ∧ matchesTemplate cnpjShape (generateCnpj (randomDigits draw 12)) = true.
Proof.
  intros Hd. destruct (randomDigits_digits draw 12 Hd) as (b & -> & Hb & HL).
  rewrite generateCnpj_layout by assumption.
  assert (Hds : Forall isDigit (cnpjDigits b)) by now apply cnpjDigits_digits.
  assert (Hlen : length (digitChar <$> cnpjDigits b) = 14%nat).
  { rewrite length_fmap. unfold cnpjDigits. cbv zeta. rewrite length_app, HL. reflexivity. }
  destruct (cnpjLayout_shape _ Hlen (digitChars_all _ Hds)) as (H1 & H2 & _).
  split; assumption.
Qed.

Lemma step_documentsShown e w :
  UI.drawsDigits e → documentsShown (UI.state w) → documentsShown (UI.state (UI.step e w)).
Proof.
  unfold documentsShown. intros He (Hc & Hn & Hfc & Hfn).
  destruct e as [draw|draw|r|r|]; cbn [UI.step UI.drawsDigits] in *.
  - cbn. repeat apply conj; [right; now apply generateCpf_shape|exact Hn| |exact Hfn].
    discriminate.
  - cbn. repeat apply conj; [exact Hc|right; now apply generateCnpj_shape|exact Hfc|].
    discriminate.
  - unfold UI.copyToClipboard. destruct (cpf (UI.state w)) as [|c text] eqn:E.
    + rewrite E. auto.
    + destruct r as [ok|]; cbn; rewrite E; repeat apply conj; auto; discriminate.
  - unfold UI.copyToClipboard. destruct (cnpj (UI.state w)) as [|c text] eqn:E.
    + rewrite E. auto.
    + destruct r as [ok|]; cbn; rewrite E; repeat apply conj; auto; discriminate.
  - unfold UI.timeout. destruct (UI.pending w) as [|t rest]; [auto|].
    destruct t; cbn; repeat apply conj; auto; discriminate.
Qed.

Lemma mounted_documentsShown w : UI.mounted w → documentsShown (UI.state w).
Proof.
  intros [-> _]. unfold documentsShown. cbn. repeat apply conj; auto; discriminate.
Qed.

(** X14. Each input shows nothing or a well-formed document: from the mounted
    component and after any sequence of events, the CPF field is empty or a
    14-character DDD.DDD.DDD-DD and the CNPJ field is empty or an
    18-character DD.DDD.DDD/DDDD-DD. *)
Theorem fields_empty_or_well_formed events w :
  UI.mounted w → Forall UI.drawsDigits events →
  let st := UI.state (UI.run events w) in
  (cpf st = EmptyString
   ∨ (String.length (cpf st) = 14%nat ∧ matchesTemplate cpfShape (cpf st) = true))
  ∧ (cnpj st = EmptyString
     ∨ (String.length (cnpj st) = 18%nat ∧ matchesTemplate cnpjShape (cnpj st) = true)).
Proof.
  intros Hm He st.
  assert (H : documentsShown st).
  { apply (run_invariant (fun w' => documentsShown (UI.state w')) UI.drawsDigits).
    - apply step_documentsShown.
    - exact He.
    - now apply mounted_documentsShown. }
  destruct H as (Hc & Hn & _). split; assumption.
Qed.

Lemma fields_empty_or_well_formed_witness :
  let st := UI.state (UI.run [UI.GenerateCpf exampleDraw; UI.CopyCpf UI.Threw; UI.Timeout]
                             mountedPage) in
  (cpf st = EmptyString
   ∨ (String.length (cpf st) = 14%nat ∧ matchesTemplate cpfShape (cpf st) = true))
  ∧ (cnpj st = EmptyString
     ∨ (String.length (cnpj st) = 18%nat ∧ matchesTemplate cnpjShape (cnpj st) = true)).
Proof.
  apply (fields_empty_or_well_formed
           [UI.GenerateCpf exampleDraw; UI.CopyCpf UI.Threw; UI.Timeout] mountedPage).
  - split; reflexivity.
  - events_ok.
Defined.



(** X16. A copy is confirmed whenever [execCommand] does not throw, whatever it
    returns: the flag of the kind is set and its reset scheduled, the
    documents and the other flag staying as they are. When it throws, the
    state and the timers are untouched and one line goes to the console. *)
Theorem copy_confirms_unless_thrown (text : string) (t : UI.copyType) w :
  text ≠ EmptyString →
  (∀ ok, let w' := UI.copyToClipboard text t (UI.Returned ok) w in
         flag t (UI.state w') = true
         ∧ UI.pending w' = UI.pending w ++ [t]
         ∧ cpf (UI.state w') = cpf (UI.state w)
         ∧ cnpj (UI.state w') = cnpj (UI.state w)
         ∧ (∀ t', t' ≠ t → flag t' (UI.state w') = flag t' (UI.state w))
         ∧ UI.console w' = UI.console w)
  ∧ (let w' := UI.copyToClipboard text t UI.Threw w in
     UI.state w' = UI.state w
     ∧ UI.pending w' = UI.pending w
     ∧ UI.console w' = UI.console w ++ ["Failed to copy text: "%string]).
Proof.
  intros Ht. destruct text as [|c text]; [now destruct Ht|]. split.
  - intros ok w'. subst w'. destruct t; cbn; repeat apply conj; try reflexivity;
      intros []; intros H; first [reflexivity | now destruct H].
  - cbn. repeat apply conj; reflexivity.
Qed.

Lemma copy_confirms_unless_thrown_witness :
  flag UI.TypeCnpj
    (UI.state (UI.copyToClipboard "11.144.447/7001-36" UI.TypeCnpj (UI.Returned false)
                                  mountedPage)) = true.
Proof.
  refine (proj1 (proj1 (copy_confirms_unless_thrown "11.144.447/7001-36" UI.TypeCnpj
                          mountedPage _) false)).
  discriminate.
Defined.

(** X17. The timer of an earlier copy withdraws the confirmation of a later one:
    after two copies of the same kind, the first callback to run turns the
    flag off while the callback of the second copy is still scheduled. *)
Theorem second_confirmation_cut_short (ok1 ok2 : bool) w :
  cpf (UI.state w) ≠ EmptyString → UI.pending w = [] →
  let w' := UI.run [UI.CopyCpf (UI.Returned ok1); UI.CopyCpf (UI.Returned ok2)] w in
  copiedCpf (UI.state w') = true
  ∧ copiedCpf (UI.state (UI.step UI.Timeout w')) = false
  ∧ UI.pending (UI.step UI.Timeout w') = [UI.TypeCpf].
Proof.
  intros Ht Hp. cbn [UI.run UI.step].
  destruct (cpf (UI.state w)) as [|c text] eqn:E; [now destruct Ht|].
  cbn. rewrite E. cbn. unfold UI.timeout. cbn. rewrite Hp. cbn.
  repeat split.
Qed.

Lemma second_confirmation_cut_short_witness :
  let w' := UI.run [UI.CopyCpf (UI.Returned true); UI.CopyCpf (UI.Returned true)]
                   examplePage in
  copiedCpf (UI.state w') = true
  ∧ copiedCpf (UI.state (UI.step UI.Timeout w')) = false
  ∧ UI.pending (UI.step UI.Timeout w') = [UI.TypeCpf].
Proof.
  apply (second_confirmation_cut_short true true examplePage).
  - vm_compute. discriminate.
  - reflexivity.
Defined.

Lemma copyToClipboard_documents (text : string) (t : UI.copyType) (r : UI.execResult) w :
  cpf (UI.state (UI.copyToClipboard text t r w)) = cpf (UI.state w)
  ∧ cnpj (UI.state (UI.copyToClipboard text t r w)) = cnpj (UI.state w).
Proof. destruct text, r, t; split; reflexivity. Qed.

Lemma timeout_documents w :
  cpf (UI.state (UI.timeout w)) = cpf (UI.state w)
  ∧ cnpj (UI.state (UI.timeout w)) = cnpj (UI.state w).
Proof.
  unfold UI.timeout. destruct (UI.pending w) as [|[] rest]; split; reflexivity.
Qed.

(** X18. A field changes only through its own generate button: copying, timers
    and generating the other kind leave the document shown as it is. *)
Theorem field_changes_only_by_generation events w :
  (Forall keepsCpf events → cpf (UI.state (UI.run events w)) = cpf (UI.state w))
  ∧ (Forall keepsCnpj events → cnpj (UI.state (UI.run events w)) = cnpj (UI.state w)).
Proof.
  split; intros He.
  - apply (run_invariant (fun w' => cpf (UI.state w') = cpf (UI.state w)) keepsCpf);
      [|exact He|reflexivity].
    intros e w' Hk <-. destruct e as [draw|draw|r|r|]; cbn [UI.step].
    + destruct Hk.
    + reflexivity.
    + apply copyToClipboard_documents.
    + apply copyToClipboard_documents.
    + apply timeout_documents.
  - apply (run_invariant (fun w' => cnpj (UI.state w') = cnpj (UI.state w)) keepsCnpj);
      [|exact He|reflexivity].
    intros e w' Hk <-. destruct e as [draw|draw|r|r|]; cbn [UI.step].
    + reflexivity.
    + destruct Hk.
    + apply copyToClipboard_documents.
    + apply copyToClipboard_documents.
    + apply timeout_documents.
Qed.

Lemma field_changes_only_by_generation_witness :
  cpf (UI.state (UI.run [UI.GenerateCnpj exampleDraw; UI.CopyCpf (UI.Returned true);
                         UI.Timeout; UI.CopyCnpj UI.Threw] examplePage))
  = cpf (UI.state examplePage).
Proof.
  refine (proj1 (field_changes_only_by_generation
                   [UI.GenerateCnpj exampleDraw; UI.CopyCpf (UI.Returned true);
                    UI.Timeout; UI.CopyCnpj UI.Threw] examplePage) _).
  repeat (apply Forall_cons; split; [exact I|]). apply Forall_nil_2.
Defined.

End Component.
